(** * Door event logger: the event ledger of the server

    A shallow embedding of the Express handlers of the door event logger
    and of the SQL statements they send to PostgreSQL through
    [pool.query], followed by the properties of the ledger: validation,
    soft delete (undo), the last-event lookup, the recent list, the CSV
    export and the retention cleanup.

    Conventions of the embedding.
    - JavaScript numbers are integers ([Z]); [NaN] is a separate
      constructor.  [parseInt] rounds what it reads to a double
      ([JS.to_double]); fractional numbers are outside the modelled inputs.
    - JavaScript strings are [string]s whose characters are the code units
      0..255.
    - [req.body] is a finite map from property names to JSON values;
      [req.query] and [req.params] entries are strings, absent ones [None].
    - PostgreSQL [TIMESTAMP] values are microseconds since 1970-01-01
      ([Z]); the node process and the database session both run in UTC.
    - The server clock [NOW()] is an explicit argument [now] of every
      handler.
    - The table is a list of rows.  [ORDER BY timestamp_utc DESC] is the
      work of the engine, of which only the SQL contract is assumed (class
      [Engine]): the order of rows with equal timestamps is not fixed.
    - A query that PostgreSQL rejects returns [None], which is the
      exception caught by the handler. *)

From Stdlib Require Import ZArith Ascii String List Sorting.Sorted.
From stdpp Require Import base decidable option list sorting strings gmap pretty.

Local Open Scope string_scope.
Local Open Scope list_scope.
Local Open Scope Z_scope.

(** ** JavaScript values and the coercions the handlers rely on *)

Module JS.

(** The result of a numeric conversion. *)
Inductive number :=
  | NaN
  | Num (n : Z).

(** A decoded JSON value of [req.body]; [JUndefined] is an absent
    property. *)
Inductive value :=
  | JUndefined
  | JNull
  | JBool (b : bool)
  | JNum (n : Z)
  | JStr (s : string).

(** [Number.MAX_SAFE_INTEGER]: up to it, in absolute value, integers are
    doubles and print as their decimal digits. *)
Definition max_safe_integer : Z := 9007199254740991.

(** The double nearest to the integer [n], ties to the even significand:
    an integer of more than 53 bits keeps its 53 leading bits. *)
Definition to_double (n : Z) : Z :=
  let a := Z.abs n in
  let sh := Z.log2 a - 52 in
  if sh <=? 0 then n
  else
    let q := Z.shiftr a sh in
    let r := a - Z.shiftl q sh in
    let half := Z.shiftl 1 (sh - 1) in
    let q' :=
      if (half <? r) || ((r =? half) && Z.odd q) then q + 1 else q in
    Z.sgn n * Z.shiftl q' sh.

(** [Number::toString] on a positive integer double [v]: the fewest
    significant digits that still read back as [v], followed by zeros; of
    two such numbers the one closer to [v], then the one with the even last
    digit.  [e] is the number of zeros tried, from the most down. *)
Fixpoint shortest_from (v : Z) (e : nat) : Z :=
  match e with
  | O => v
  | S e' =>
      let p := 10 ^ Z.of_nat e in
      let lo := v / p * p in
      let hi := lo + p in
      let ok_lo := to_double lo =? v in
      let ok_hi := to_double hi =? v in
      if ok_lo && ok_hi then
        if v - lo <? hi - v then lo
        else if hi - v <? v - lo then hi
        else if Z.even (lo / p) then lo else hi
      else if ok_lo then lo
      else if ok_hi then hi
      else shortest_from v e'
  end.

(** The integer whose decimal digits [String(n)] prints for an integer
    double [n].  Up to 2^53 these are the digits of [n]; from 10^21 on the
    text is in exponent notation. *)
Definition printed_integer (n : Z) : Z :=
  let a := Z.abs n in
  if a <=? 2 ^ 53 then n
  else Z.sgn n * shortest_from a (String.length (pretty a) - 1).

#[export] Instance number_eq_dec : EqDecision number.
Proof. solve_decision. Defined.

#[export] Instance value_eq_dec : EqDecision value.
Proof. solve_decision. Defined.

Definition code (c : ascii) : Z := Z.of_N (N_of_ascii c).

(** WhiteSpace and LineTerminator code units below 256. *)
Definition is_whitespace (c : ascii) : bool :=
  let n := code c in
  (n =? 9) || (n =? 10) || (n =? 11) || (n =? 12) || (n =? 13)
  || (n =? 32) || (n =? 160).

Fixpoint trim_start (s : string) : string :=
  match s with
  | String c s' => if is_whitespace c then trim_start s' else s
  | EmptyString => EmptyString
  end.

Definition string_rev (s : string) : string :=
  string_of_list_ascii (rev (list_ascii_of_string s)).

Definition trim (s : string) : string :=
  string_rev (trim_start (string_rev (trim_start s))).

(** The value of a character as a digit, up to radix 36. *)
Definition digit_value (c : ascii) : option Z :=
  let n := code c in
  if (48 <=? n) && (n <=? 57) then Some (n - 48)
  else if (97 <=? n) && (n <=? 122) then Some (n - 87)
  else if (65 <=? n) && (n <=? 90) then Some (n - 55)
  else None.

(** The longest prefix of radix-[R] digits of [s], as an integer; [acc] is
    [None] until a digit has been read. *)
Fixpoint digits_prefix (R : Z) (s : string) (acc : option Z) : option Z :=
  match s with
  | String c s' =>
      match digit_value c with
      | Some d =>
          if d <? R then digits_prefix R s' (Some (default 0 acc * R + d))
          else acc
      | None => acc
      end
  | EmptyString => acc
  end.

(** All of [s] as radix-[R] digits, at least one. *)
Fixpoint digits_all (R : Z) (s : string) (acc : option Z) : option Z :=
  match s with
  | String c s' =>
      match digit_value c with
      | Some d =>
          if d <? R then digits_all R s' (Some (default 0 acc * R + d))
          else None
      | None => None
      end
  | EmptyString => acc
  end.

(** [parseInt(string)] with no radix argument: leading white space is
    skipped, then an optional sign, then [0x]/[0X] selects radix 16, then
    the longest prefix of digits is read; no digit gives [NaN].  The result
    is a Number: the integer read, rounded to a double.  (From 2^1024 on
    the Number is [Infinity]; it stays an integer here, beyond every
    [bigint] all the same.) *)
Definition parseInt_string (s : string) : number :=
  let S0 := trim_start s in
  let '(sign, S1) :=
    match S0 with
    | String "-" r => (-1, r)
    | String "+" r => (1, r)
    | _ => (1, S0)
    end in
  let '(R, S2) :=
    match S1 with
    | String "0" (String "x" r) => (16, r)
    | String "0" (String "X" r) => (16, r)
    | _ => (10, S1)
    end in
  match digits_prefix R S2 None with
  | None => NaN
  | Some m => Num (to_double (sign * m))
  end.

(** [parseInt(req.query.limit)]: an absent parameter is [undefined], whose
    string conversion is ["undefined"]. *)
Definition parseInt (v : option string) : number :=
  parseInt_string (default "undefined" v).

(** [ToBoolean] on numbers: [NaN] and zero are falsy. *)
Definition number_truthy (x : number) : bool :=
  match x with
  | NaN => false
  | Num n => negb (n =? 0)
  end.

(** [x || d] on numbers. *)
Definition number_or (x : number) (d : number) : number :=
  if number_truthy x then x else d.

(** [ToBoolean]. *)
Definition truthy (v : value) : bool :=
  match v with
  | JUndefined | JNull => false
  | JBool b => b
  | JNum n => negb (n =? 0)
  | JStr s => negb (String.eqb s "")
  end.

(** [StringToNumber] on the integer literals: white space is trimmed, the
    empty string is 0, then either an unsigned [0x]/[0o]/[0b] literal or an
    optionally signed run of decimal digits.  Literals with a fraction, an
    exponent or [Infinity] are not integers and are outside the modelled
    inputs; they read as [NaN] here. *)
Definition StringToNumber (s : string) : number :=
  let t := trim s in
  let of_digits R r :=
    match digits_all R r None with Some m => Num m | None => NaN end in
  match t with
  | EmptyString => Num 0
  | String "0" (String "x" r) | String "0" (String "X" r) => of_digits 16 r
  | String "0" (String "o" r) | String "0" (String "O" r) => of_digits 8 r
  | String "0" (String "b" r) | String "0" (String "B" r) => of_digits 2 r
  | String "-" r =>
      match digits_all 10 r None with Some m => Num (- m) | None => NaN end
  | String "+" r => of_digits 10 r
  | _ => of_digits 10 t
  end.

(** [ToNumber]. *)
Definition ToNumber (v : value) : number :=
  match v with
  | JUndefined => NaN
  | JNull => Num 0
  | JBool b => Num (if b then 1 else 0)
  | JNum n => Num n
  | JStr s => StringToNumber s
  end.

(** [v < k] and [v > k] for a number literal [k]: the operand is converted
    with [ToNumber] and a comparison with [NaN] is false. *)
Definition lt (v : value) (k : Z) : bool :=
  match ToNumber v with
  | NaN => false
  | Num n => n <? k
  end.

Definition gt (v : value) (k : Z) : bool :=
  match ToNumber v with
  | NaN => false
  | Num n => k <? n
  end.

(** [Array.prototype.includes] on an array of strings: SameValueZero, so
    only a string equal to an element is found. *)
Definition includes (l : list string) (v : value) : bool :=
  match v with
  | JStr s => existsb (String.eqb s) l
  | _ => false
  end.

End JS.

(** ** The [events] table and the PostgreSQL side of [pool.query] *)

(** A row of [events], with the columns of [CREATE TABLE events]:
    [created_at] and [deleted_at] are nullable. *)
Record row := {
  id : Z;
  door_number : Z;
  event_type : string;
  timestamp_utc : Z;
  created_at : option Z;
  deleted_at : option Z
}.

#[export] Instance row_eq_dec : EqDecision row.
Proof. solve_decision. Defined.

(** [deleted_at IS NULL]. *)
Definition active (r : row) : bool :=
  match deleted_at r with None => true | Some _ => false end.

(** The order requested by [ORDER BY timestamp_utc DESC]. *)
Definition ts_desc (a b : row) : Prop := timestamp_utc b <= timestamp_utc a.

#[export] Instance ts_desc_dec : RelDecision ts_desc.
Proof. intros a b. unfold ts_desc. apply _. Defined.

(** What the SQL text asks of the engine for [ORDER BY timestamp_utc DESC]:
    the same rows, in an order that is descending in [timestamp_utc].  The
    order among rows with equal timestamps is the engine's own.  One engine
    orders them in one way; PostgreSQL may order them differently from one
    query to the next, so a property that compares the answers to two
    queries is stated for two engines. *)
Class Engine := {
  order_by_timestamp_desc : list row -> list row;
  order_by_permutation :
    forall l, order_by_timestamp_desc l ≡ₚ l;
  order_by_sorted :
    forall l, StronglySorted ts_desc (order_by_timestamp_desc l)
}.

Module PG.

Definition int4_min : Z := -2147483648.
Definition int4_max : Z := 2147483647.
Definition int8_max : Z := 9223372036854775807.

Definition in_int4 (n : Z) : bool := (int4_min <=? n) && (n <=? int4_max).

(** C [isspace]. *)
Definition is_space (c : ascii) : bool :=
  let n := JS.code c in
  (n =? 9) || (n =? 10) || (n =? 11) || (n =? 12) || (n =? 13) || (n =? 32).

Fixpoint skip_space (s : string) : string :=
  match s with
  | String c s' => if is_space c then skip_space s' else s
  | EmptyString => EmptyString
  end.

Definition is_digit (c : ascii) : bool :=
  let n := JS.code c in (48 <=? n) && (n <=? 57).

(** The leading decimal digits of [s] and what follows them. *)
Fixpoint read_decimal (s : string) (acc : option Z) : option Z * string :=
  match s with
  | String c s' =>
      if is_digit c
      then read_decimal s' (Some (default 0 acc * 10 + (JS.code c - 48)))
      else (acc, s)
  | EmptyString => (acc, s)
  end.

(** The text input of type [integer], in its decimal grammar: optional
    white space, optional sign, at least one digit, optional white space;
    a value out of the 32-bit range is an error.  Every version of
    PostgreSQL reads these texts, and reads them so.  From version 16 on
    some further texts are integers too ([0x1F], [0o17], [0b11], [1_000]);
    they are refused here, as they are up to version 15.  A property that
    rests on a text being read asks that it is in this grammar
    ([int4in s = Some _]); one that rests on a text being refused asks that
    it has no digit ([no_digit]), which no version reads. *)
Definition int4in (s : string) : option Z :=
  let s0 := skip_space s in
  let '(neg, s1) :=
    match s0 with
    | String "-" r => (true, r)
    | String "+" r => (false, r)
    | _ => (false, s0)
    end in
  match read_decimal s1 None with
  | (Some m, rest) =>
      match skip_space rest with
      | EmptyString =>
          let n := if neg : bool then - m else m in
          if in_int4 n then Some n else None
      | _ => None
      end
  | (None, _) => None
  end.

(** node-postgres [prepareValue]: the text sent for a query parameter;
    [None] is SQL [NULL]. *)
Definition prepareValue (v : JS.value) : option string :=
  match v with
  | JS.JUndefined | JS.JNull => None
  | JS.JBool b => Some (if b then "true" else "false")
  | JS.JNum n => Some (pretty n)
  | JS.JStr s => Some s
  end.

Definition event_types : list string := ["A_IN"; "A_OUT"; "B_IN"; "B_OUT"].

Definition microseconds_per_day : Z := 86400000000.

End PG.

(** The statements of the server, with the parameters bound to them. *)
Inductive statement :=
  | InsertEvent (door_number event_type : JS.value)
  | SoftDelete (id : string)
  | SelectRecent (limit : JS.number)
  | SelectLast (door_number event_type : string)
  | SelectAllActive
  | DeleteOlderThan (days : Z).

(** The database behind the pool: the rows of [events], the last value of
    the sequence behind [id SERIAL], and the statements received so far
    (most recent first). *)
Record store := {
  events : list row;
  events_id_seq : Z;
  statements : list statement
}.

(** The outcome of a statement that did not fail: [result.rows] and
    [result.rowCount]. *)
Record result := {
  rows : list row;
  rowCount : Z
}.

Definition empty_store : store :=
  {| events := []; events_id_seq := 0; statements := [] |}.

(** ** JavaScript [Date] values, as node-postgres builds them from a
    [TIMESTAMP] column *)

Module Date.

(** The largest time value of a [Date], in milliseconds. *)
Definition max_time : Z := 8640000000000000.

(** The [Date] for a [TIMESTAMP]: milliseconds since the epoch, the
    microseconds dropped; [None] is an invalid [Date]. *)
Definition of_timestamp (us : Z) : option Z :=
  let ms := us / 1000 in
  if (- max_time <=? ms) && (ms <=? max_time) then Some ms else None.

(** Year, month and day of a day number counted from 1970-01-01, in the
    proleptic Gregorian calendar. *)
Definition civil_from_days (days : Z) : Z * Z * Z :=
  let z := days + 719468 in
  let era := z / 146097 in
  let doe := z - era * 146097 in
  let yoe := (doe - doe / 1460 + doe / 36524 - doe / 146096) / 365 in
  let doy := doe - (365 * yoe + yoe / 4 - yoe / 100) in
  let mp := (5 * doy + 2) / 153 in
  let d := doy - (153 * mp + 2) / 5 + 1 in
  let m := if mp <? 10 then mp + 3 else mp - 9 in
  let y := yoe + era * 400 + (if m <=? 2 then 1 else 0) in
  (y, m, d).

Fixpoint zeros (n : nat) : string :=
  match n with
  | O => ""
  | S n' => String "0" (zeros n')
  end.

(** The decimal digits of a non-negative [n], padded with zeros on the left
    to [width] characters. *)
Definition pad (width : nat) (n : Z) : string :=
  let s := pretty n in
  zeros (width - String.length s) +:+ s.

(** [Date.prototype.toISOString] of a valid time value. *)
Definition toISOString (ms : Z) : string :=
  let days := ms / 86400000 in
  let tod := ms mod 86400000 in
  let '(y, m, d) := civil_from_days days in
  let year :=
    if (0 <=? y) && (y <=? 9999) then pad 4 y
    else (if y <? 0 then "-" else "+") +:+ pad 6 (Z.abs y) in
  year +:+ "-" +:+ pad 2 m +:+ "-" +:+ pad 2 d +:+ "T"
  +:+ pad 2 (tod / 3600000) +:+ ":" +:+ pad 2 (tod / 60000 mod 60) +:+ ":"
  +:+ pad 2 (tod / 1000 mod 60) +:+ "." +:+ pad 3 (tod mod 1000) +:+ "Z".

End Date.

(** ** ISO-8601, as the specification names it

    Modelled from the spec: the specification asks for timestamps rendered
    in ISO-8601, in UTC.  [ISO8601.read] reads the date-time form of the
    standard that names an instant in UTC to the millisecond,
    [YYYY-MM-DDTHH:mm:ss.sssZ], with the expanded years [+YYYYYY] and
    [-YYYYYY].  It is written from the calendar (the days before a year and
    before a month), not from the rendering of the code. *)

Module ISO8601.

(** Exactly [w] decimal digits at the head of [s]: their value, after
    [acc], and the rest of [s]. *)
Fixpoint digits (w : nat) (s : string) (acc : Z) : option (Z * string) :=
  match w with
  | O => Some (acc, s)
  | S w' =>
      match s with
      | String c s' =>
          if PG.is_digit c then digits w' s' (acc * 10 + (JS.code c - 48))
          else None
      | EmptyString => None
      end
  end.

(** The character [c] at the head of [s]: the rest of [s]. *)
Definition expect (c : ascii) (s : string) : option string :=
  match s with
  | String c' s' => if Ascii.eqb c' c then Some s' else None
  | EmptyString => None
  end.

Definition is_leap (y : Z) : bool :=
  (y mod 4 =? 0) && (negb (y mod 100 =? 0) || (y mod 400 =? 0)).

Definition days_in_month (y m : Z) : Z :=
  if m =? 2 then (if is_leap y then 29 else 28)
  else if (m =? 4) || (m =? 6) || (m =? 9) || (m =? 11) then 30
  else 31.

(** The days of year [y] before its month [m]. *)
Definition days_before_month (y m : Z) : Z :=
  nth (Z.to_nat (m - 1))
      [0; 31; 59; 90; 120; 151; 181; 212; 243; 273; 304; 334] 0
  + (if (2 <? m) && is_leap y then 1 else 0).

(** The days from 0001-01-01 to the first day of year [y], in the
    proleptic Gregorian calendar. *)
Definition days_before_year (y : Z) : Z :=
  let p := y - 1 in 365 * p + p / 4 - p / 100 + p / 400.

(** The day number of a date, counted from 1970-01-01, which is 719162
    days after 0001-01-01. *)
Definition days_from_civil (y m d : Z) : Z :=
  days_before_year y + days_before_month y m + (d - 1) - 719162.

(** The year: four digits, or a sign and six digits. *)
Definition year (s : string) : option (Z * string) :=
  match s with
  | String c r =>
      if Ascii.eqb c "+" then digits 6 r 0
      else if Ascii.eqb c "-" then
        '(y, rest) ← digits 6 r 0; Some (- y, rest)
      else digits 4 s 0
  | EmptyString => None
  end.

(** Modelled from the spec: the instant named by
    [YYYY-MM-DDTHH:mm:ss.sssZ], in milliseconds since
    1970-01-01T00:00:00Z; [None] when the text is not of that form, or
    names no day of the calendar or no time of day. *)
Definition read (s : string) : option Z :=
  '(y, s) ← year s;
  s ← expect "-" s;
  '(m, s) ← digits 2 s 0;
  s ← expect "-" s;
  '(d, s) ← digits 2 s 0;
  s ← expect "T" s;
  '(h, s) ← digits 2 s 0;
  s ← expect ":" s;
  '(mi, s) ← digits 2 s 0;
  s ← expect ":" s;
  '(sec, s) ← digits 2 s 0;
  s ← expect "." s;
  '(f, s) ← digits 3 s 0;
  s ← expect "Z" s;
  if String.eqb s ""
     && (1 <=? m) && (m <=? 12) && (1 <=? d) && (d <=? days_in_month y m)
     && (h <? 24) && (mi <? 60) && (sec <? 60)
  then Some (days_from_civil y m d * 86400000
             + h * 3600000 + mi * 60000 + sec * 1000 + f)
  else None.

End ISO8601.

(** ** Responses *)

(** A row as the handlers see it: the selected columns [id, door_number,
    event_type, timestamp_utc], the last one as a [Date]. *)
Record event := {
  event_id : Z;
  event_door_number : Z;
  event_event_type : string;
  event_timestamp_utc : option Z
}.

Definition event_of_row (r : row) : event :=
  {| event_id := id r;
     event_door_number := door_number r;
     event_event_type := event_type r;
     event_timestamp_utc := Date.of_timestamp (timestamp_utc r) |}.

Inductive payload :=
  | Error (error : string)
  | Event (e : event)
  | Events (events : list event)
  | DeletedCount (deleted_count : Z)
  | Csv (filename : string) (csv : string)
  | NoContent.

Record response := {
  status : Z;
  body : payload
}.

#[export] Instance event_eq_dec : EqDecision event.
Proof. solve_decision. Defined.

#[export] Instance payload_eq_dec : EqDecision payload.
Proof. solve_decision. Defined.

#[export] Instance response_eq_dec : EqDecision response.
Proof. solve_decision. Defined.

Definition json (code : Z) (p : payload) : response :=
  {| status := code; body := p |}.

(** [LIMIT n] for a non-negative [n]: the first [n] rows. *)
Fixpoint sql_limit {A} (n : Z) (l : list A) : list A :=
  match l with
  | [] => []
  | r :: l' => if n <=? 0 then [] else r :: sql_limit (n - 1) l'
  end.

(** ** [pool.query]: the six statements of the server *)

Section Server.

Context {engine : Engine}.

Definition with_events (l : list row) (st : store) : store :=
  {| events := l;
     events_id_seq := events_id_seq st;
     statements := statements st |}.

Definition with_seq (n : Z) (st : store) : store :=
  {| events := events st;
     events_id_seq := n;
     statements := statements st |}.

Definition received (q : statement) (st : store) : store :=
  {| events := events st;
     events_id_seq := events_id_seq st;
     statements := q :: statements st |}.

(** [INSERT INTO events (door_number, event_type, timestamp_utc, created_at)
     VALUES ($1, $2, NOW() AT TIME ZONE 'UTC', NOW() AT TIME ZONE 'UTC')
     RETURNING id, door_number, event_type, timestamp_utc].
    The parameters are read first; then [id] takes the next value of the
    sequence, which stays consumed when a constraint rejects the row. *)
Definition insert_event (door type : JS.value) (now : Z) (st : store)
  : option result * store :=
  let door_in :=
    match PG.prepareValue door with
    | None => Some None
    | Some t => Some <$> PG.int4in t
    end in
  match door_in with
  | None => (None, st)
  | Some d =>
      let n := events_id_seq st + 1 in
      if PG.int4_max <? n then (None, st)
      else
        match d, PG.prepareValue type with
        | Some d, Some t =>
            if (1 <=? d) && (d <=? 26) && existsb (String.eqb t) PG.event_types
            then
              let r := {| id := n; door_number := d; event_type := t;
                          timestamp_utc := now; created_at := Some now;
                          deleted_at := None |} in
              (Some {| rows := [r]; rowCount := 1 |},
               with_seq n (with_events (events st ++ [r]) st))
            else (None, with_seq n st)
        | _, _ => (None, with_seq n st)
        end
  end.

Definition mark_deleted (now : Z) (r : row) : row :=
  {| id := id r; door_number := door_number r; event_type := event_type r;
     timestamp_utc := timestamp_utc r; created_at := created_at r;
     deleted_at := Some now |}.

(** The [WHERE id = $1 AND deleted_at IS NULL] of the soft delete. *)
Definition targets (i : Z) (r : row) : bool := (id r =? i) && active r.

(** [UPDATE events SET deleted_at = NOW() AT TIME ZONE 'UTC'
     WHERE id = $1 AND deleted_at IS NULL RETURNING id]. *)
Definition soft_delete (id_text : string) (now : Z) (st : store)
  : option result * store :=
  match PG.int4in id_text with
  | None => (None, st)
  | Some i =>
      let hit := filter (fun r => targets i r = true) (events st) in
      (Some {| rows := mark_deleted now <$> hit;
               rowCount := Z.of_nat (length hit) |},
       with_events
         ((fun r => if targets i r then mark_deleted now r else r)
            <$> events st) st)
  end.

(** [WHERE deleted_at IS NULL]. *)
Definition active_rows (st : store) : list row :=
  filter (fun r => active r = true) (events st).

(** [SELECT id, door_number, event_type, timestamp_utc FROM events
     WHERE deleted_at IS NULL ORDER BY timestamp_utc DESC LIMIT $1].
    The parameter arrives as the text of the number and is read as a
    [bigint]; a negative limit, or one that is no [bigint], is an error. *)
Definition select_recent (limit : JS.number) (st : store)
  : option result * store :=
  match limit with
  | JS.Num n =>
      let m := JS.printed_integer n in
      if (0 <=? m) && (m <=? PG.int8_max) then
        let l := sql_limit m (order_by_timestamp_desc (active_rows st)) in
        (Some {| rows := l; rowCount := Z.of_nat (length l) |}, st)
      else (None, st)
  | JS.NaN => (None, st)
  end.

(** The [WHERE door_number = $1 AND event_type = $2 AND deleted_at IS NULL]
    of the last-event lookup. *)
Definition for_button (d : Z) (t : string) (r : row) : bool :=
  (door_number r =? d) && String.eqb (event_type r) t && active r.

(** [SELECT id, door_number, event_type, timestamp_utc FROM events
     WHERE door_number = $1 AND event_type = $2 AND deleted_at IS NULL
     ORDER BY timestamp_utc DESC LIMIT 1]. *)
Definition select_last (door type : string) (st : store)
  : option result * store :=
  match PG.int4in door with
  | None => (None, st)
  | Some d =>
      let l :=
        sql_limit 1 (order_by_timestamp_desc
                       (filter (fun r => for_button d type r = true)
                               (events st))) in
      (Some {| rows := l; rowCount := Z.of_nat (length l) |}, st)
  end.

(** [SELECT id, door_number, event_type, timestamp_utc FROM events
     WHERE deleted_at IS NULL ORDER BY timestamp_utc DESC]. *)
Definition select_all_active (st : store) : option result * store :=
  let l := order_by_timestamp_desc (active_rows st) in
  (Some {| rows := l; rowCount := Z.of_nat (length l) |}, st).

(** [NOW() - INTERVAL 'days days']. *)
Definition cutoff (days now : Z) : Z := now - days * PG.microseconds_per_day.

(** [created_at < NOW() - INTERVAL 'days days']; a null [created_at]
    compares as unknown and the row is kept. *)
Definition older_than (c : Z) (r : row) : bool :=
  match created_at r with
  | Some t => t <? c
  | None => false
  end.

(** The range of [timestamp with time zone], in microseconds since
    1970-01-01. *)
Definition timestamp_in_range (t : Z) : bool :=
  (-210866803200000000 <=? t) && (t <? 9224318016000000000).

(** [DELETE FROM events
     WHERE created_at < NOW() - INTERVAL 'days days' RETURNING id].
    A day count that is no 32-bit integer, or a cutoff outside the range of
    timestamps, is an error. *)
Definition delete_older_than (days now : Z) (st : store)
  : option result * store :=
  if PG.in_int4 days && timestamp_in_range (cutoff days now) then
    let c := cutoff days now in
    let gone := filter (fun r => older_than c r = true) (events st) in
    (Some {| rows := gone; rowCount := Z.of_nat (length gone) |},
     with_events (filter (fun r => older_than c r = false) (events st)) st)
  else (None, st).

(** [pool.query(text, params)] at server time [now]: [None] is a query
    that PostgreSQL rejects, which the handler catches. *)
Definition pool_query (q : statement) (now : Z) (st : store)
  : option result * store :=
  let st := received q st in
  match q with
  | InsertEvent d t => insert_event d t now st
  | SoftDelete i => soft_delete i now st
  | SelectRecent n => select_recent n st
  | SelectLast d t => select_last d t st
  | SelectAllActive => select_all_active st
  | DeleteOlderThan days => delete_older_than days now st
  end.

End Server.

(** ** The request handlers *)

Section Handlers.

Context {engine : Engine}.

(** [process.env.DATA_RETENTION_DAYS || 7]; the variable, when set, holds
    the decimal text of an integer. *)
Definition DATA_RETENTION_DAYS (env : option Z) : Z := default 7 env.

(** [app.post('/api/events')]: [body] is [req.body]. *)
Definition post_events (body : gmap string JS.value) (now : Z) (st : store)
  : response * store :=
  let door_number := default JS.JUndefined (body !! "door_number") in
  let event_type := default JS.JUndefined (body !! "event_type") in
  if negb (JS.truthy door_number) || negb (JS.truthy event_type) then
    (json 400 (Error "door_number and event_type are required"), st)
  else if JS.lt door_number 1 || JS.gt door_number 26 then
    (json 400 (Error "door_number must be between 1 and 26"), st)
  else if negb (JS.includes ["A_IN"; "A_OUT"; "B_IN"; "B_OUT"] event_type) then
    (json 400 (Error "event_type must be A_IN, A_OUT, B_IN, or B_OUT"), st)
  else
    match pool_query (InsertEvent door_number event_type) now st with
    | (Some r, st') =>
        match rows r with
        | r0 :: _ => (json 201 (Event (event_of_row r0)), st')
        | [] => (json 201 NoContent, st')
        end
    | (None, st') => (json 500 (Error "Failed to create event"), st')
    end.

(** [app.delete('/api/events/:id')]: [id] is [req.params.id]. *)
Definition delete_event (id : string) (now : Z) (st : store)
  : response * store :=
  match pool_query (SoftDelete id) now st with
  | (Some r, st') =>
      if Nat.eqb (length (rows r)) 0
      then (json 404 (Error "Event not found or already deleted"), st')
      else (json 204 NoContent, st')
  | (None, st') => (json 500 (Error "Failed to delete event"), st')
  end.

(** [app.get('/api/events/recent')]: [limit] is [req.query.limit]. *)
Definition get_recent (limit : option string) (now : Z) (st : store)
  : response * store :=
  let limit := JS.number_or (JS.parseInt limit) (JS.Num 10) in
  match pool_query (SelectRecent limit) now st with
  | (Some r, st') => (json 200 (Events (event_of_row <$> rows r)), st')
  | (None, st') => (json 500 (Error "Failed to fetch events"), st')
  end.

(** [!s] for a query parameter: absent or empty. *)
Definition missing (s : option string) : bool :=
  match s with
  | None => true
  | Some s => String.eqb s ""
  end.

(** [app.get('/api/events/last')]: the arguments are
    [req.query.door_number] and [req.query.event_type]. *)
Definition get_last (door_number event_type : option string) (now : Z)
  (st : store) : response * store :=
  if missing door_number || missing event_type then
    (json 400 (Error "door_number and event_type are required"), st)
  else
    match pool_query (SelectLast (default "" door_number)
                                 (default "" event_type)) now st with
    | (Some r, st') =>
        match rows r with
        | [] => (json 404 (Error "No events found for this button"), st')
        | r0 :: _ => (json 200 (Event (event_of_row r0)), st')
        end
    | (None, st') => (json 500 (Error "Failed to fetch last event"), st')
    end.

(** The template literal of a CSV row; [toISOString] throws on an invalid
    [Date], which is [None] here. *)
Definition csv_row (e : event) : option string :=
  iso ← Date.toISOString <$> event_timestamp_utc e;
  Some (pretty (event_id e) +:+ "," +:+ pretty (event_door_number e) +:+ ","
        +:+ event_event_type e +:+ "," +:+ iso).

Definition csv_headers : string := "id,door_number,event_type,timestamp_utc
".

Definition newline : string := String "010" "".

(** [s.replace(/[:.]/g, '-')]. *)
Fixpoint dashes (s : string) : string :=
  match s with
  | String c s' =>
      String (if Ascii.eqb c ":" || Ascii.eqb c "." then "-"%char else c)
             (dashes s')
  | EmptyString => EmptyString
  end.

(** [app.get('/api/events/export')]. *)
Definition get_export (now : Z) (st : store) : response * store :=
  match pool_query SelectAllActive now st with
  | (Some r, st') =>
      match mapM csv_row (event_of_row <$> rows r),
            Date.toISOString <$> Date.of_timestamp now with
      | Some lines, Some iso =>
          let csv := csv_headers +:+ String.concat newline lines in
          let timestamp := String.substring 0 19 (dashes iso) in
          let filename := "door_events_" +:+ timestamp +:+ ".csv" in
          (json 200 (Csv filename csv), st')
      | _, _ => (json 500 (Error "Failed to export events"), st')
      end
  | (None, st') => (json 500 (Error "Failed to export events"), st')
  end.

(** [app.post('/api/cleanup')]; [days] is [DATA_RETENTION_DAYS]. *)
Definition post_cleanup (days : Z) (now : Z) (st : store) : response * store :=
  match pool_query (DeleteOlderThan days) now st with
  | (Some r, st') => (json 200 (DeletedCount (rowCount r)), st')
  | (None, st') => (json 500 (Error "Cleanup failed"), st')
  end.

(** The job of [cron.schedule('0 0 * * *')]: the same statement, its
    outcome only logged. *)
Definition scheduled_cleanup (days : Z) (now : Z) (st : store) : store :=
  snd (pool_query (DeleteOlderThan days) now st).

(** The requests of the API. *)
Inductive request :=
  | PostEvents (body : gmap string JS.value)
  | DeleteEvent (id : string)
  | GetRecent (limit : option string)
  | GetLast (door_number event_type : option string)
  | GetExport
  | PostCleanup.

(** The server with retention [days], answering one request at server
    time [now]. *)
Definition handle (days : Z) (req : request) (now : Z) (st : store)
  : response * store :=
  match req with
  | PostEvents body => post_events body now st
  | DeleteEvent id => delete_event id now st
  | GetRecent limit => get_recent limit now st
  | GetLast d t => get_last d t now st
  | GetExport => get_export now st
  | PostCleanup => post_cleanup days now st
  end.

(** What reaches the server: a request or a tick of the scheduler. *)
Inductive input :=
  | Http (req : request)
  | Tick.

Definition step (days : Z) (i : input) (now : Z) (st : store) : store :=
  match i with
  | Http req => snd (handle days req now st)
  | Tick => scheduled_cleanup days now st
  end.

(** Modelled from the spec: [undo_last] is not a route of the server; the
    spec composes it from the last-event lookup and the soft delete of the
    id found, which is what a client of the API does with
    [GET /api/events/last] and [DELETE /api/events/:id]. *)
Definition undo_last (door_number event_type : option string) (now : Z)
  (st : store) : response * store :=
  match get_last door_number event_type now st with
  | ({| status := 200; body := Event e |}, st') =>
      delete_event (pretty (event_id e)) now st'
  | (r, st') => (r, st')
  end.

End Handlers.

(** ** Two engines that meet the contract of [ORDER BY]

    Both sort by [timestamp_utc] descending; they differ only in the order
    of rows whose timestamps are equal. *)

Definition ties_by_id (up : bool) (a b : row) : Prop :=
  timestamp_utc b < timestamp_utc a
  \/ (timestamp_utc a = timestamp_utc b
      /\ if up then id a <= id b else id b <= id a).

#[export] Instance ties_by_id_dec up : RelDecision (ties_by_id up).
Proof. intros a b. unfold ties_by_id. destruct up; apply _. Defined.

#[export] Instance ties_by_id_total up : Total (ties_by_id up).
Proof.
  intros a b. unfold ties_by_id.
  destruct up; destruct (Z.lt_trichotomy (timestamp_utc a) (timestamp_utc b))
    as [?|[?|?]]; destruct (Z.le_ge_cases (id a) (id b)); lia.
Qed.

#[export] Instance ties_by_id_trans up : Transitive (ties_by_id up).
Proof. intros a b c. unfold ties_by_id. destruct up; lia. Qed.

Definition sort_ties_by_id (up : bool) (l : list row) : list row :=
  merge_sort (ties_by_id up) l.

(** Sorting with [ties_by_id up] meets the contract. *)
Definition engine_ties_by_id (up : bool) : Engine.
Proof.
  refine {| order_by_timestamp_desc := sort_ties_by_id up |}.
  - intros l. apply merge_sort_Permutation.
  - intros l. unfold sort_ties_by_id.
    pose proof (StronglySorted_merge_sort (ties_by_id up) l) as Hs.
    induction Hs as [|a l' Hs IH Hall]; constructor; [exact IH|].
    eapply Forall_impl; [exact Hall|].
    intros b. unfold ties_by_id, ts_desc. lia.
Defined.

(** Among equal timestamps, the lower id comes first. *)
#[export] Instance lower_id_first : Engine | 10 := engine_ties_by_id true.

(** Among equal timestamps, the higher id comes first. *)
#[export] Instance higher_id_first : Engine | 20 := engine_ties_by_id false.

(** ** Runs of the server and the life cycle of an event *)

Section Runs.

Context {engine : Engine}.

(** The server answering a sequence of requests, each at its own server
    time. *)
Fixpoint run (days : Z) (reqs : list (request * Z)) (st : store)
  : list response * store :=
  match reqs with
  | [] => ([], st)
  | (req, now) :: reqs' =>
      let '(resp, st1) := handle days req now st in
      let '(resps, st2) := run days reqs' st1 in
      (resp :: resps, st2)
  end.

End Runs.

(** The number of responses with a given status. *)
Definition count_status (code : Z) (l : list response) : nat :=
  length (filter (fun r => status r = code) l).

Definition is_cleanup (req : request) : bool :=
  match req with
  | PostCleanup => true
  | _ => false
  end.

(** The row with a given id, in table order. *)
Definition find_row (k : Z) (l : list row) : option row :=
  List.find (fun r => id r =? k) l.

Definition find_id (i : Z) (st : store) : option row :=
  find_row i (events st).

(** The states of an event id: not yet assigned, a row that is active, a
    row that is soft-deleted, and no row although the sequence has passed
    the id. *)
Inductive lifecycle :=
  | Unassigned
  | Active
  | Deleted
  | Gone.

Definition lifecycle_of (i : Z) (st : store) : lifecycle :=
  match find_id i st with
  | Some r => if active r then Active else Deleted
  | None => if i <=? events_id_seq st then Gone else Unassigned
  end.

(** The moves of the state machine [ACTIVE --undo--> DELETED --purge-->
    (gone)], [ACTIVE --purge--> (gone)], together with the creation of an
    event and an id that the sequence passes without a row. *)
Inductive transition : lifecycle -> lifecycle -> Prop :=
  | t_stay s : transition s s
  | t_record : transition Unassigned Active
  | t_skip : transition Unassigned Gone
  | t_undo : transition Active Deleted
  | t_purge_active : transition Active Gone
  | t_purge_deleted : transition Deleted Gone.

(** The ids of the table are distinct ([PRIMARY KEY]) and were all drawn
    from the sequence, which starts at 1 and is 32 bits wide. *)
Definition consistent (st : store) : Prop :=
  NoDup (id <$> events st)
  /\ Forall (fun r => 1 <= id r <= events_id_seq st) (events st)
  /\ 0 <= events_id_seq st <= PG.int4_max.

(** The text of a CSV row for a row of the table. *)
Definition export_line (r : row) : string :=
  pretty (id r) +:+ "," +:+ pretty (door_number r) +:+ ","
  +:+ event_type r +:+ "," +:+ Date.toISOString (timestamp_utc r / 1000).

(** Modelled from the spec: a serialized row carries [id], [door_number],
    [event_type] and [timestamp_utc] in this order; here they are separated
    by commas, and the last field is an ISO-8601 text in UTC that names
    [timestamp_utc] to the millisecond, its microseconds dropped. *)
Definition exported (r : row) (line : string) : Prop :=
  exists iso,
    line = pretty (id r) +:+ "," +:+ pretty (door_number r) +:+ ","
           +:+ event_type r +:+ "," +:+ iso
    /\ ISO8601.read iso = Some (timestamp_utc r / 1000).

(** The [timestamp_utc] of the row is in the range of [Date]. *)
Definition valid_date (us : Z) : Prop := is_Some (Date.of_timestamp us).

(** [f] holds of the [n] integers from [x] on. *)
Fixpoint all_from (f : Z -> bool) (n : nat) (x : Z) : bool :=
  match n with
  | O => true
  | S n' => f x && all_from f n' (x + 1)
  end.

(** The month and the day that [Date.civil_from_days] gives for day [doy]
    of a year counted from the first of March are a month and a day of the
    calendar: from March to December the day [doy + 59] of a year without
    leap day counted from the first of January, in January and February
    the day [doy - 306] of the next one; day 365 is the 29th of
    February. *)
Definition month_day_ok (doy : Z) : bool :=
  let mp := (5 * doy + 2) / 153 in
  let d := doy - (153 * mp + 2) / 5 + 1 in
  let m := if mp <? 10 then mp + 3 else mp - 9 in
  (1 <=? m) && (m <=? 12) && (1 <=? d)
  && (d <=? ISO8601.days_in_month 1 m + (if doy =? 365 then 1 else 0))
  && (negb (doy =? 365) || (m =? 2))
  && (ISO8601.days_before_month 1 m + d - 1
      =? (if m <=? 2 then doy - 306 else doy + 59)).

(** A soft delete of id [i] at [now] takes row [r] to row [r']. *)
Definition soft_deleted (i now : Z) (r r' : row) : Prop :=
  if decide (id r = i /\ deleted_at r = None)
  then r' = mark_deleted now r
  else r' = r.

(** [created_at] is set and strictly before [c]. *)
Definition expired (c : Z) (r : row) : Prop :=
  exists t, created_at r = Some t /\ t < c.

(** What one input can do to the table. *)
Inductive changes (now : Z) (st st' : store) : Prop :=
  | same_rows :
      events st' = events st ->
      events_id_seq st' = events_id_seq st
      \/ (events_id_seq st' = events_id_seq st + 1
          /\ events_id_seq st + 1 <= PG.int4_max) ->
      changes now st st'
  | row_recorded r :
      events st' = events st ++ [r] ->
      id r = events_id_seq st + 1 ->
      deleted_at r = None ->
      events_id_seq st' = events_id_seq st + 1 ->
      events_id_seq st + 1 <= PG.int4_max ->
      changes now st st'
  | rows_undone i :
      events st'
      = (fun r => if targets i r then mark_deleted now r else r) <$> events st ->
      events_id_seq st' = events_id_seq st ->
      changes now st st'
  | rows_purged c :
      events st' = filter (fun r => older_than c r = false) (events st) ->
      events_id_seq st' = events_id_seq st ->
      changes now st st'.

(** Every row has a [timestamp_utc] in the range of [Date]. *)
Definition dated (st : store) : Prop :=
  Forall (fun r => valid_date (timestamp_utc r)) (events st).

(** ** Concrete stores used in the examples *)

Definition button (d : Z) (t : string) : gmap string JS.value :=
  {[ "door_number" := JS.JNum d; "event_type" := JS.JStr t ]}.

(** Two events of door 5, [A_IN], recorded at the same server time. *)
Definition tied_store : store :=
  snd (post_events (engine := lower_id_first) (button 5 "A_IN") 36000000000
    (snd (post_events (engine := lower_id_first) (button 5 "A_IN") 36000000000
       empty_store))).

(** Twelve events, one per microsecond. *)
Definition twelve_events : store :=
  foldl (fun st k =>
           snd (post_events (engine := lower_id_first) (button 7 "B_OUT")
                  (Z.of_nat k) st))
        empty_store (seq 1 12).

(** One event recorded on day 2 and one on day 4. *)
Definition retention_store : store :=
  snd (post_events (engine := lower_id_first) (button 3 "B_IN")
         (4 * PG.microseconds_per_day)
    (snd (post_events (engine := lower_id_first) (button 3 "A_OUT")
            (2 * PG.microseconds_per_day) empty_store))).

(** Two events recorded and the first one undone. *)
Definition two_records_one_undo : list (request * Z) :=
  [(PostEvents (button 5 "A_IN"), 1759517123123456);
   (PostEvents (button 6 "A_IN"), 1759517125456789);
   (DeleteEvent "1", 1759517130000000)].

(** Two events recorded 333 microseconds apart, within one millisecond. *)
Definition two_records_same_millisecond : list (request * Z) :=
  [(PostEvents (button 5 "A_IN"), 1759517123123456);
   (PostEvents (button 5 "A_IN"), 1759517123123789)].

(** Three events of door 5, [A_IN], then one of door 6, [A_IN]. *)
Definition mixed_store : store :=
  foldl (fun st p =>
           snd (post_events (engine := lower_id_first)
                  (button (fst p) "A_IN") (snd p) st))
        empty_store
        [(5, 36000000000); (5, 36001000000); (5, 36002000000);
         (6, 36003000000)].

(** ** Further vocabulary for the properties of the handlers *)

(** The [CHECK] constraints of [CREATE TABLE events], and the two columns
    that the [INSERT] of the server fills with the same [NOW()]. *)
Definition stored_row_ok (r : row) : Prop :=
  1 <= door_number r <= 26
  /\ event_type r ∈ PG.event_types
  /\ created_at r = Some (timestamp_utc r).

(** The ids of the events created in a list of answers: those of the 201
    answers. *)
Definition created_ids (l : list response) : list Z :=
  omap (fun r =>
          match body r with
          | Event e => if decide (status r = 201) then Some (event_id e)
                       else None
          | _ => None
          end) l.

(** The three routes that only read. *)
Definition is_read (req : request) : bool :=
  match req with
  | GetRecent _ | GetLast _ _ | GetExport => true
  | _ => false
  end.

Definition is_select (q : statement) : bool :=
  match q with
  | SelectRecent _ | SelectLast _ _ | SelectAllActive => true
  | _ => false
  end.

(** The events of a 200 answer of the recent list; none otherwise. *)
Definition listed (r : response) : list event :=
  match body r with
  | Events l => l
  | _ => []
  end.

(** The characters of a string. *)
Definition chars (s : string) : list ascii := list_ascii_of_string s.

(** A text without any decimal digit.  No integer literal of PostgreSQL,
    in any of its versions, is without one. *)
Fixpoint no_digit (s : string) : bool :=
  match s with
  | String c s' => negb (PG.is_digit c) && no_digit s'
  | EmptyString => true
  end.

(** ** Properties *)

(** *** JavaScript coercions *)

Lemma includes_true l v :
  JS.includes l v = true <-> exists s, v = JS.JStr s /\ s ∈ l.
Proof.
  unfold JS.includes. destruct v as [| |b|n|s]; try (split; [discriminate|];
    intros (s' & Heq & _); discriminate).
  rewrite existsb_exists. split.
  - intros (x & Hin & Hx). apply String.eqb_eq in Hx. subst x.
    exists s. split; [reflexivity|]. by apply list_elem_of_In.
  - intros (s' & Heq & Hin). injection Heq as <-. exists s.
    split; [by apply list_elem_of_In | apply String.eqb_refl].
Qed.

(** *** Recording an event *)

Section Record.

Context {engine : Engine}.

(** C3: a record request whose door number converts to a number outside
    [1,26], or whose event type is not one of the four strings, is answered
    400; the store is left as it was, and no statement was sent to it. *)
Theorem record_invalid_rejected (body : gmap string JS.value) (now : Z)
    (st : store) :
  (exists n, JS.ToNumber (default JS.JUndefined (body !! "door_number")) = JS.Num n
             /\ (n < 1 \/ 26 < n))
  \/ default JS.JUndefined (body !! "event_type") ∉ JS.JStr <$> PG.event_types ->
  status (fst (post_events body now st)) = 400
  /\ snd (post_events body now st) = st.
Proof.
  intros Hbad. unfold post_events.
  destruct (negb (JS.truthy _) || negb (JS.truthy _)); [done|].
  destruct (JS.lt _ 1 || JS.gt _ 26) eqn:Hrange; [done|].
  destruct (negb (JS.includes _ _)) eqn:Hinc; [done|].
  exfalso. destruct Hbad as [(n & Hn & Hout)|Hnot].
  - apply orb_false_elim in Hrange as [Hlt Hgt].
    unfold JS.lt, JS.gt in Hlt, Hgt. rewrite Hn in Hlt, Hgt. lia.
  - apply negb_false_iff, includes_true in Hinc as (s & Hs & Hin).
    apply Hnot. rewrite Hs. apply list_elem_of_fmap. by exists s.
Qed.

End Record.

Lemma record_invalid_rejected_witness :
  status (fst (post_events (button 27 "A_IN") 1000 empty_store)) = 400
  /\ snd (post_events (button 27 "A_IN") 1000 empty_store) = empty_store.
Proof.
  apply (record_invalid_rejected (button 27 "A_IN") 1000 empty_store).
  left. exists 27. split; [reflexivity | lia].
Defined.

Section ServerTime.

Context {engine : Engine}.

(** A successful insert appends one row, stamped with the server time. *)
Lemma insert_event_success door type now st r st' :
  insert_event door type now st = (Some r, st') ->
  exists d t,
    let new := {| id := events_id_seq st + 1; door_number := d;
                  event_type := t; timestamp_utc := now;
                  created_at := Some now; deleted_at := None |} in
    rows r = [new]
    /\ events st' = events st ++ [new]
    /\ events_id_seq st' = events_id_seq st + 1
    /\ events_id_seq st + 1 <= PG.int4_max
    /\ statements st' = statements st.
Proof.
  unfold insert_event. intros Hins.
  destruct (match PG.prepareValue door with
            | Some t => Some <$> PG.int4in t
            | None => Some None
            end) as [d|]; [|discriminate].
  destruct (PG.int4_max <? events_id_seq st + 1) eqn:Hmax; [discriminate|].
  destruct d as [d|]; [|discriminate].
  destruct (PG.prepareValue type) as [t|]; [|discriminate].
  destruct (_ && _); [|discriminate].
  injection Hins as <- <-. exists d, t. simpl. repeat split; lia.
Qed.

(** A failed insert leaves the rows as they were; the sequence stays or
    moves on by one. *)
Lemma insert_event_failure door type now st st' :
  insert_event door type now st = (None, st') ->
  events st' = events st
  /\ (events_id_seq st' = events_id_seq st
      \/ (events_id_seq st' = events_id_seq st + 1
          /\ events_id_seq st + 1 <= PG.int4_max))
  /\ statements st' = statements st.
Proof.
  unfold insert_event. intros Hins.
  destruct (match PG.prepareValue door with
            | Some t => Some <$> PG.int4in t
            | None => Some None
            end) as [d|].
  2:{ injection Hins as <-. repeat split; by left. }
  destruct (PG.int4_max <? events_id_seq st + 1) eqn:Hmax.
  { injection Hins as <-. repeat split; by left. }
  assert (Hstep : forall st0, st0 = with_seq (events_id_seq st + 1) st ->
    events st0 = events st
    /\ (events_id_seq st0 = events_id_seq st
        \/ (events_id_seq st0 = events_id_seq st + 1
            /\ events_id_seq st + 1 <= PG.int4_max))
    /\ statements st0 = statements st).
  { intros st0 ->. simpl. repeat split. right. split; [reflexivity | lia]. }
  destruct d as [d|]; [|injection Hins as <-; by apply Hstep].
  destruct (PG.prepareValue type) as [t|];
    [|injection Hins as <-; by apply Hstep].
  destruct (_ && _); [discriminate|].
  injection Hins as <-. by apply Hstep.
Qed.

(** C9: a property of the request body other than [door_number] and
    [event_type], such as a timestamp supplied by the caller, has no
    influence on the response or on the store; and the row of a created
    event carries the server time in [timestamp_utc] and [created_at]. *)
Theorem record_ignores_caller_timestamp (b : gmap string JS.value)
    (k : string) (v : JS.value) (now : Z) (st : store) :
  k <> "door_number" -> k <> "event_type" ->
  post_events (<[k := v]> b) now st = post_events b now st
  /\ (status (fst (post_events b now st)) = 201 ->
      exists r,
        events (snd (post_events b now st)) = events st ++ [r]
        /\ timestamp_utc r = now /\ created_at r = Some now
        /\ body (fst (post_events (<[k := v]> b) now st))
           = Event (event_of_row r)).
Proof.
  intros Hd Ht.
  assert (Heq : post_events (<[k := v]> b) now st = post_events b now st).
  { unfold post_events. by rewrite !lookup_insert_ne. }
  split; [exact Heq|]. rewrite Heq. clear Heq.
  unfold post_events.
  destruct (negb (JS.truthy _) || negb (JS.truthy _)); [discriminate|].
  destruct (JS.lt _ 1 || JS.gt _ 26); [discriminate|].
  destruct (negb (JS.includes _ _)); [discriminate|].
  unfold pool_query.
  destruct (insert_event _ _ now (received _ st)) as [[r|] st'] eqn:Hins;
    [|discriminate].
  apply insert_event_success in Hins as (d & t & Hrows & Hev & _).
  rewrite Hrows. simpl. intros _. eexists. split; [exact Hev|]. done.
Qed.

End ServerTime.

Lemma record_ignores_caller_timestamp_witness :
  post_events (<["timestamp_utc" := JS.JStr "1999-12-31T23:59:59.000Z"]>
                 (button 5 "A_IN")) 36000000000 empty_store
  = post_events (button 5 "A_IN") 36000000000 empty_store.
Proof.
  apply (proj1 (record_ignores_caller_timestamp (button 5 "A_IN")
           "timestamp_utc" (JS.JStr "1999-12-31T23:59:59.000Z") 36000000000
           empty_store ltac:(discriminate) ltac:(discriminate))).
Defined.

(** *** The recent list *)

Section Recent.

Context {engine : Engine}.

Lemma active_rows_spec r st :
  r ∈ active_rows st <-> r ∈ events st /\ deleted_at r = None.
Proof.
  unfold active_rows. rewrite list_elem_of_filter. unfold active.
  destruct (deleted_at r); split; intros [? ?]; split; done.
Qed.

Lemma sql_limit_take {A} (n : Z) (l : list A) :
  sql_limit n l = take (Z.to_nat n) l.
Proof.
  revert n. induction l as [|r l IH]; intros n; simpl.
  - by rewrite take_nil.
  - destruct (n <=? 0) eqn:Hn.
    + replace (Z.to_nat n) with 0%nat by lia. reflexivity.
    + replace (Z.to_nat n) with (S (Z.to_nat (n - 1))) by lia.
      simpl. by rewrite IH.
Qed.

(** The limit that reaches the query is never zero and never [NaN]. *)
Lemma limit_or_default limit :
  exists k, JS.number_or (JS.parseInt limit) (JS.Num 10) = JS.Num k /\ k <> 0.
Proof.
  unfold JS.number_or. destruct (JS.parseInt limit) as [|n]; simpl.
  - exists 10. split; [reflexivity | lia].
  - destruct (n =? 0) eqn:Hn; simpl.
    + exists 10. split; [reflexivity | lia].
    + exists n. split; [reflexivity | lia].
Qed.

(** *** Numbers beyond 2^53 *)




Lemma printed_integer_safe k : Z.abs k <= 2 ^ 53 -> JS.printed_integer k = k.
Proof.
  intros H. unfold JS.printed_integer.
  destruct (Z.leb_spec (Z.abs k) (2 ^ 53)); [reflexivity | lia].
Qed.



(** *** The text of a limit *)





(** The answer of the recent list once the limit [k] that reaches the
    query is known: [m] is the integer PostgreSQL reads from its text. *)
Lemma get_recent_sent limit k now st :
  JS.number_or (JS.parseInt limit) (JS.Num 10) = JS.Num k ->
  get_recent limit now st =
    let m := JS.printed_integer k in
    if (0 <=? m) && (m <=? PG.int8_max)
    then (json 200 (Events (event_of_row <$>
            take (Z.to_nat m) (order_by_timestamp_desc (active_rows st)))),
          received (SelectRecent (JS.Num k)) st)
    else (json 500 (Error "Failed to fetch events"),
          received (SelectRecent (JS.Num k)) st).
Proof.
  intros Hk. unfold get_recent, pool_query, select_recent. rewrite Hk.
  cbv zeta. destruct (_ && _); [|reflexivity]. simpl.
  by rewrite sql_limit_take.
Qed.

(** The same for a limit up to 2^53, which is sent as it is. *)
Lemma get_recent_with limit k now st :
  JS.number_or (JS.parseInt limit) (JS.Num 10) = JS.Num k ->
  Z.abs k <= 2 ^ 53 ->
  get_recent limit now st =
    if (0 <=? k) && (k <=? PG.int8_max)
    then (json 200 (Events (event_of_row <$>
            take (Z.to_nat k) (order_by_timestamp_desc (active_rows st)))),
          received (SelectRecent (JS.Num k)) st)
    else (json 500 (Error "Failed to fetch events"),
          received (SelectRecent (JS.Num k)) st).
Proof.
  intros Hk Hsafe. rewrite (get_recent_sent limit k now st Hk). cbv zeta.
  by rewrite (printed_integer_safe k Hsafe).
Qed.

(** C10: a limit that is absent, not numeric or zero is replaced by 10,
    and the ten most recent active events at most are returned; a negative
    limit reaches the query as it is, and the query fails. *)
Theorem recent_default_limit (limit : option string) (now : Z) (st : store) :
  (limit = None \/ JS.parseInt limit = JS.NaN \/ JS.parseInt limit = JS.Num 0 ->
   get_recent limit now st = get_recent (Some "10") now st
   /\ fst (get_recent limit now st)
      = json 200 (Events (event_of_row <$>
                    take 10 (order_by_timestamp_desc (active_rows st)))))
  /\ (forall n, JS.parseInt limit = JS.Num n ->
      - JS.max_safe_integer <= n < 0 ->
      statements (snd (get_recent limit now st))
      = SelectRecent (JS.Num n) :: statements st
      /\ fst (get_recent limit now st)
         = json 500 (Error "Failed to fetch events")).
Proof.
  split.
  - intros Hdef.
    assert (Hk : JS.number_or (JS.parseInt limit) (JS.Num 10) = JS.Num 10).
    { destruct Hdef as [->|[Hp|Hp]]; [reflexivity| |]; unfold JS.number_or;
        by rewrite Hp. }
    rewrite (get_recent_with limit 10), (get_recent_with (Some "10") 10);
      [done | reflexivity | lia | exact Hk | lia].
  - intros n Hn [Hsafe Hneg]. unfold JS.max_safe_integer in Hsafe.
    rewrite (get_recent_with limit n).
    + replace ((0 <=? n) && (n <=? PG.int8_max)) with false by lia. done.
    + unfold JS.number_or. rewrite Hn. simpl.
      destruct (n =? 0) eqn:E; [lia | reflexivity].
    + lia.
Qed.


End Recent.

Lemma recent_default_limit_witness :
  get_recent (Some "abc") 13 twelve_events = get_recent (Some "10") 13 twelve_events
  /\ statements (snd (get_recent (Some "-5") 13 twelve_events))
     = SelectRecent (JS.Num (-5)) :: statements twelve_events.
Proof.
  split.
  - apply (proj1 (recent_default_limit (Some "abc") 13 twelve_events)).
    right. left. reflexivity.
  - apply (proj2 (recent_default_limit (Some "-5") 13 twelve_events) (-5));
      [reflexivity | by vm_compute].
Defined.


(** *** Undo by id *)

Lemma targets_true i r :
  targets i r = true <-> id r = i /\ deleted_at r = None.
Proof.
  unfold targets, active. destruct (deleted_at r); split; intros Ht.
  - apply andb_prop in Ht as [_ ?]. discriminate.
  - destruct Ht as [_ ?]. discriminate.
  - apply andb_prop in Ht as [? _]. split; [lia | reflexivity].
  - destruct Ht as [? _]. apply andb_true_intro. split; [lia | reflexivity].
Qed.

Lemma targets_mark_deleted i now r : targets i (mark_deleted now r) = false.
Proof. unfold targets, active. simpl. apply andb_false_r. Qed.

(** The rows after the [UPDATE], related one by one to the rows before. *)
Lemma update_soft_deleted i now l :
  Forall2 (soft_deleted i now) l
    ((fun r => if targets i r then mark_deleted now r else r) <$> l).
Proof.
  induction l as [|r l IH]; simpl; constructor; [|exact IH].
  unfold soft_deleted. destruct (targets i r) eqn:Ht.
  - apply targets_true in Ht. by rewrite decide_True.
  - rewrite decide_False; [reflexivity|].
    intros Hr. apply targets_true in Hr. congruence.
Qed.

Lemma update_none i now l :
  filter (fun r => targets i r = true) l = [] ->
  (fun r => if targets i r then mark_deleted now r else r) <$> l = l.
Proof.
  induction l as [|r l IH]; [reflexivity|]. simpl.
  rewrite filter_cons. destruct (decide (targets i r = true)) as [Ht|Ht].
  - discriminate.
  - intros Hnil. apply not_true_is_false in Ht. rewrite Ht.
    f_equal. by apply IH.
Qed.

Lemma update_no_target_left i now l :
  filter (fun r => targets i r = true)
    ((fun r => if targets i r then mark_deleted now r else r) <$> l) = [].
Proof.
  induction l as [|r l IH]; [reflexivity|]. simpl. rewrite filter_cons.
  destruct (targets i r) eqn:Ht.
  - rewrite decide_False; [exact IH|]. by rewrite targets_mark_deleted.
  - rewrite decide_False; [exact IH|]. by rewrite Ht.
Qed.

Lemma hit_nil i l :
  filter (fun r => targets i r = true) l = []
  <-> ~ exists r, r ∈ l /\ id r = i /\ deleted_at r = None.
Proof.
  split.
  - intros Hnil (r & Hin & Hr).
    eapply (filter_nil_not_elem_of _ _ r Hnil); [|exact Hin].
    by apply targets_true.
  - intros Hno. induction l as [|r l IH]; [reflexivity|].
    rewrite filter_cons. destruct (decide (targets i r = true)) as [Ht|Ht].
    + exfalso. apply Hno. exists r. split; [left|by apply targets_true].
    + apply IH. intros (r' & Hin & Hr'). apply Hno. exists r'.
      split; [by right | exact Hr'].
Qed.

Section Undo.

Context {engine : Engine}.

(** The answer of the soft delete for an id that reads as the integer
    [i]. *)
Lemma delete_event_with id_text i now st :
  PG.int4in id_text = Some i ->
  delete_event id_text now st =
    (if decide (filter (fun r => targets i r = true) (events st) = [])
     then json 404 (Error "Event not found or already deleted")
     else json 204 NoContent,
     with_events ((fun r => if targets i r then mark_deleted now r else r)
                    <$> events st)
                 (received (SoftDelete id_text) st)).
Proof.
  intros Hi. unfold delete_event, pool_query, soft_delete. rewrite Hi. simpl.
  rewrite length_fmap.
  destruct (filter _ (events st)) as [|r0 l0]; reflexivity.
Qed.

(** C2: for an id [i], the soft delete answers 204 exactly when a row with
    that id exists and is active; it then sets [deleted_at] of that row and
    changes no other row.  Otherwise it answers 404 and the rows stay as
    they were.  After a 204, the same request is answered 404. *)
Theorem undo_by_id (id_text : string) (i now : Z) (st : store) :
  PG.int4in id_text = Some i ->
  let found := exists r, r ∈ events st /\ id r = i /\ deleted_at r = None in
  let out := delete_event id_text now st in
  (found -> fst out = json 204 NoContent)
  /\ (~ found ->
      fst out = json 404 (Error "Event not found or already deleted")
      /\ events (snd out) = events st)
  /\ Forall2 (soft_deleted i now) (events st) (events (snd out))
  /\ events_id_seq (snd out) = events_id_seq st
  /\ (forall now2,
        fst (delete_event id_text now2 (snd out))
        = json 404 (Error "Event not found or already deleted")
        /\ events (snd (delete_event id_text now2 (snd out)))
           = events (snd out)).
Proof.
  intros Hi found out. unfold out.
  rewrite (delete_event_with id_text i now st Hi). simpl.
  split; [|split; [|split; [|split]]].
  - intros Hfound. rewrite decide_False; [reflexivity|].
    intros Hnil. by apply hit_nil in Hnil.
  - intros Hnot. apply hit_nil in Hnot.
    rewrite decide_True by exact Hnot. split; [reflexivity|].
    by apply update_none.
  - apply update_soft_deleted.
  - reflexivity.
  - intros now2. rewrite (delete_event_with id_text i now2 _ Hi). simpl.
    rewrite decide_True by apply update_no_target_left.
    split; [reflexivity|]. apply update_none, update_no_target_left.
Qed.

End Undo.

Lemma undo_by_id_witness :
  fst (delete_event "2" 36000000500 tied_store) = json 204 NoContent
  /\ fst (delete_event "2" 36000000900
            (snd (delete_event "2" 36000000500 tied_store)))
     = json 404 (Error "Event not found or already deleted").
Proof.
  pose proof (undo_by_id "2" 2 36000000500 tied_store ltac:(reflexivity))
    as (Hok & _ & _ & _ & Hagain).
  split.
  - apply Hok. eexists. split; [right; left|]. split; reflexivity.
  - apply (Hagain 36000000900).
Defined.

(** *** Retention cleanup *)

Lemma older_than_true c r : older_than c r = true <-> expired c r.
Proof.
  unfold older_than, expired. destruct (created_at r) as [t|]; split.
  - intros Ht. exists t. split; [reflexivity | lia].
  - intros (t' & Heq & Hlt). injection Heq as ->. lia.
  - discriminate.
  - intros (t' & Heq & _). discriminate.
Qed.

Lemma older_than_false c r : older_than c r = false <-> ~ expired c r.
Proof.
  rewrite <- older_than_true. destruct (older_than c r); split; congruence.
Qed.

Lemma delete_partition c (l : list row) :
  l ≡ₚ filter (fun r => older_than c r = true) l
       ++ filter (fun r => older_than c r = false) l.
Proof.
  induction l as [|r l IH]; [reflexivity|].
  rewrite !filter_cons. destruct (older_than c r) eqn:Ho.
  - rewrite decide_True, decide_False by congruence. simpl. by constructor.
  - rewrite decide_False, decide_True by congruence.
    rewrite <- Permutation_middle. by constructor.
Qed.

Lemma filter_all {A} (P : A -> Prop) `{forall x, Decision (P x)} (l : list A) :
  Forall P l -> filter P l = l.
Proof.
  induction 1 as [|x l Hx Hl IH]; [reflexivity|].
  rewrite filter_cons, decide_True by exact Hx. by rewrite IH.
Qed.

Lemma filter_none {A} (P : A -> Prop) `{forall x, Decision (P x)} (l : list A) :
  Forall (fun x => ~ P x) l -> filter P l = [].
Proof.
  induction 1 as [|x l Hx Hl IH]; [reflexivity|].
  by rewrite filter_cons, decide_False.
Qed.

Section Cleanup.

Context {engine : Engine}.

(** The answer of the cleanup when PostgreSQL accepts the statement. *)
Lemma post_cleanup_with days now st :
  PG.in_int4 days = true ->
  timestamp_in_range (cutoff days now) = true ->
  post_cleanup days now st =
    (json 200 (DeletedCount (Z.of_nat (length
       (filter (fun r => older_than (cutoff days now) r = true) (events st))))),
     with_events
       (filter (fun r => older_than (cutoff days now) r = false) (events st))
       (received (DeleteOlderThan days) st)).
Proof.
  intros Hd Hc. unfold post_cleanup, pool_query, delete_older_than.
  rewrite Hd, Hc. reflexivity.
Qed.

(** C5: the cleanup removes the rows whose [created_at] is strictly before
    [now] minus the retention, whatever their [deleted_at], keeps all the
    others, and answers with the number of rows removed.  With a retention
    of 7 days, a row created 6 days ago stays and a row created 8 days ago
    goes. *)
Theorem cleanup_removes_expired (days now : Z) (st : store) :
  PG.in_int4 days = true ->
  timestamp_in_range (cutoff days now) = true ->
  let out := post_cleanup days now st in
  let c := now - days * 86400000000 in
  (exists removed,
      fst out = json 200 (DeletedCount (Z.of_nat (length removed)))
      /\ events st ≡ₚ removed ++ events (snd out)
      /\ Forall (expired c) removed
      /\ Forall (fun r => ~ expired c r) (events (snd out)))
  /\ (forall r, r ∈ events (snd out) <-> r ∈ events st /\ ~ expired c r)
  /\ (days = 7 -> forall r, r ∈ events st ->
      (created_at r = Some (now - 6 * 86400000000) -> r ∈ events (snd out))
      /\ (created_at r = Some (now - 8 * 86400000000) -> r ∉ events (snd out))).
Proof.
  intros Hd Hc out c. unfold out.
  rewrite (post_cleanup_with days now st Hd Hc). simpl.
  change (cutoff days now) with c.
  assert (Hmem : forall r,
    r ∈ filter (fun r => older_than c r = false) (events st)
    <-> r ∈ events st /\ ~ expired c r).
  { intros r. rewrite list_elem_of_filter, older_than_false. tauto. }
  split; [|split; [exact Hmem|]].
  - exists (filter (fun r => older_than c r = true) (events st)).
    split; [reflexivity|]. split; [apply delete_partition|]. split.
    + apply Forall_forall. intros r Hr.
      apply list_elem_of_filter in Hr as [Hr _]. by apply older_than_true.
    + apply Forall_forall. intros r Hr.
      apply list_elem_of_filter in Hr as [Hr _]. by apply older_than_false.
  - intros -> r Hin. split.
    + intros Hc6. apply Hmem. split; [exact Hin|].
      intros (t & Ht & Hlt). unfold c in Hlt. rewrite Hc6 in Ht.
      injection Ht as <-. lia.
    + intros Hc8 Hkept. apply Hmem in Hkept as [_ Hne]. apply Hne.
      eexists. split; [exact Hc8|]. unfold c. lia.
Qed.

(** C6: a second cleanup, with the same retention and no row having reached
    the retention age since the first, removes nothing and leaves the rows
    as they were.  This is the case in particular when the server time is
    the same for both. *)
Theorem cleanup_idempotent (days now1 now2 : Z) (st : store) :
  PG.in_int4 days = true ->
  timestamp_in_range (cutoff days now1) = true ->
  timestamp_in_range (cutoff days now2) = true ->
  (forall r t, r ∈ events st -> created_at r = Some t ->
               cutoff days now1 <= t -> cutoff days now2 <= t) ->
  let st1 := snd (post_cleanup days now1 st) in
  fst (post_cleanup days now2 st1) = json 200 (DeletedCount 0)
  /\ events (snd (post_cleanup days now2 st1)) = events st1.
Proof.
  intros Hd Hc1 Hc2 Hstill st1. unfold st1.
  rewrite (post_cleanup_with days now1 st Hd Hc1). simpl.
  rewrite (post_cleanup_with days now2 _ Hd Hc2). simpl.
  assert (Hkeep : Forall (fun r => older_than (cutoff days now2) r = false)
            (filter (fun r => older_than (cutoff days now1) r = false)
                    (events st))).
  { apply Forall_forall. intros r Hr.
    apply list_elem_of_filter in Hr as [Hold Hin].
    apply older_than_false. intros (t & Ht & Hlt).
    apply older_than_false in Hold.
    destruct (Z.lt_ge_cases t (cutoff days now1)) as [Hlt1|Hge1].
    - apply Hold. by exists t.
    - specialize (Hstill r t Hin Ht Hge1). lia. }
  split.
  - rewrite filter_none; [reflexivity|].
    eapply Forall_impl; [exact Hkeep|]. simpl. intros r ->. discriminate.
  - by apply filter_all.
Qed.

End Cleanup.

(** *** Integers written by JavaScript and read by PostgreSQL *)

Lemma pretty_N_char_digit (k : N) :
  (k < 10)%N ->
  PG.is_digit (pretty_N_char k) = true
  /\ JS.code (pretty_N_char k) - 48 = Z.of_N k.
Proof.
  intros Hk.
  assert (k = 0 \/ k = 1 \/ k = 2 \/ k = 3 \/ k = 4 \/ k = 5 \/ k = 6
          \/ k = 7 \/ k = 8 \/ k = 9)%N as Hcases by lia.
  repeat (destruct Hcases as [->|Hcases]; [by vm_compute|]).
  subst k. by vm_compute.
Qed.

Lemma read_decimal_pretty_go (x : N) (s : string) :
  (0 < x)%N ->
  PG.read_decimal (pretty_N_go x s) None
  = PG.read_decimal s (Some (Z.of_N x)).
Proof.
  revert s. induction (N.lt_wf_0 x) as [x _ IH]. intros s Hx.
  rewrite pretty_N_go_step by exact Hx.
  destruct (pretty_N_char_digit (x `mod` 10)%N) as [Hdig Hval].
  { by apply N.mod_lt. }
  destruct (decide (x `div` 10 = 0)%N) as [Hz|Hnz].
  - rewrite Hz, pretty_N_go_0. simpl. rewrite Hdig, Hval. f_equal. f_equal.
    pose proof (N.div_mod x 10 ltac:(done)) as Hdm. rewrite Hz in Hdm.
    generalize dependent (x `mod` 10)%N. intros r _ _ Hdm.
    lia.
  - rewrite IH; [|apply N.div_lt; lia|by apply N.neq_0_lt_0].
    simpl. rewrite Hdig, Hval. f_equal. f_equal.
    pose proof (N.div_mod x 10 ltac:(done)) as Hdm. clear IH Hnz Hdig Hval.
    generalize dependent (x `mod` 10)%N. intros r.
    generalize dependent (x `div` 10)%N. intros q Hdm. lia.
Qed.

Lemma pretty_go_head (x : N) (s : string) :
  (0 < x)%N ->
  exists c rest, pretty_N_go x s = String c rest /\ PG.is_digit c = true.
Proof.
  revert s. induction (N.lt_wf_0 x) as [x _ IH]. intros s Hx.
  rewrite pretty_N_go_step by exact Hx.
  destruct (decide (x `div` 10 = 0)%N) as [Hz|Hnz].
  - rewrite Hz, pretty_N_go_0. eexists _, _. split; [reflexivity|].
    apply pretty_N_char_digit. by apply N.mod_lt.
  - apply IH; [apply N.div_lt; lia | by apply N.neq_0_lt_0].
Qed.

Lemma int4in_digits (c : ascii) (rest : string) (m : Z) :
  PG.is_digit c = true ->
  PG.read_decimal (String c rest) None = (Some m, "") ->
  PG.int4in (String c rest) = if PG.in_int4 m then Some m else None.
Proof.
  intros Hc Hread. unfold PG.int4in.
  assert (Hskip : PG.skip_space (String c rest) = String c rest).
  { simpl. destruct c as [[] [] [] [] [] [] [] []]; try discriminate Hc;
      reflexivity. }
  rewrite Hskip.
  assert (Hsign : (match String c rest with
                   | String "-" r => (true, r)
                   | String "+" r => (false, r)
                   | _ => (false, String c rest)
                   end) = (false, String c rest)).
  { destruct c as [[] [] [] [] [] [] [] []]; try discriminate Hc;
      reflexivity. }
  rewrite Hsign, Hread. reflexivity.
Qed.

Lemma int4in_pretty_pos (p : positive) :
  PG.int4in (pretty (Z.pos p))
  = if PG.in_int4 (Z.pos p) then Some (Z.pos p) else None.
Proof.
  change (pretty (Z.pos p)) with (pretty_N_go (N.pos p) "").
  destruct (pretty_go_head (N.pos p) "" ltac:(lia)) as (c & rest & Heq & Hc).
  pose proof (read_decimal_pretty_go (N.pos p) "" ltac:(lia)) as Hread.
  rewrite Heq in Hread |- *. by apply int4in_digits.
Qed.

(** The decimal text of a 32-bit integer reads back as that integer. *)
Lemma int4in_pretty (n : Z) :
  PG.in_int4 n = true -> PG.int4in (pretty n) = Some n.
Proof.
  intros Hn. destruct n as [|p|p].
  - reflexivity.
  - by rewrite int4in_pretty_pos, Hn.
  - change (pretty (Z.neg p)) with (String "-" (pretty_N_go (N.pos p) "")).
    unfold PG.int4in.
    change (PG.skip_space (String "-" (pretty_N_go (N.pos p) "")))
      with (String "-" (pretty_N_go (N.pos p) "")).
    cbv iota beta.
    rewrite (read_decimal_pretty_go (N.pos p) "" ltac:(lia)). simpl.
    change (Z.neg p) with (- Z.pos p) in Hn. simpl in Hn. by rewrite Hn.
Qed.

(** *** The last event of a button *)

Lemma for_button_true d t r :
  for_button d t r = true
  <-> door_number r = d /\ event_type r = t /\ deleted_at r = None.
Proof.
  unfold for_button, active. rewrite !andb_true_iff, Z.eqb_eq, String.eqb_eq.
  destruct (deleted_at r); split; intros Hb.
  - destruct Hb as [_ ?]. discriminate.
  - destruct Hb as (_ & _ & ?). discriminate.
  - destruct Hb as [[? ?] _]. done.
  - destruct Hb as (? & ? & _). done.
Qed.

Lemma NoDup_fmap_eq {A B} (f : A -> B) (l : list A) (x y : A) :
  NoDup (f <$> l) -> x ∈ l -> y ∈ l -> f x = f y -> x = y.
Proof.
  induction l as [|a l IH]; simpl; intros Hnd Hx Hy Hf.
  - by apply elem_of_nil in Hx.
  - apply NoDup_cons in Hnd as [Hnotin Hnd].
    apply elem_of_cons in Hx as [->|Hx], Hy as [->|Hy].
    + reflexivity.
    + exfalso. apply Hnotin. rewrite Hf. apply list_elem_of_fmap. by exists y.
    + exfalso. apply Hnotin. rewrite <- Hf. apply list_elem_of_fmap.
      by exists x.
    + by apply IH.
Qed.

Section Last.

Context {engine : Engine}.

(** The first row of a sorted result is one of the rows and no row has a
    later timestamp. *)
Lemma order_by_head l r0 rest :
  order_by_timestamp_desc l = r0 :: rest ->
  r0 ∈ l /\ forall r, r ∈ l -> timestamp_utc r <= timestamp_utc r0.
Proof.
  intros Heq. pose proof (order_by_permutation l) as Hperm.
  pose proof (order_by_sorted l) as Hsort. rewrite Heq in Hperm, Hsort.
  split.
  - rewrite <- Hperm. left.
  - intros r Hr. rewrite <- Hperm in Hr.
    apply StronglySorted_inv in Hsort as [_ Hall].
    apply elem_of_cons in Hr as [->|Hr]; [lia|].
    rewrite Forall_forall in Hall. unfold ts_desc in Hall. by apply Hall.
Qed.

Lemma order_by_nil l : order_by_timestamp_desc l = [] <-> l = [].
Proof.
  pose proof (order_by_permutation l) as Hperm. split; intros Heq.
  - rewrite Heq in Hperm. by apply Permutation_nil_l in Hperm.
  - subst l. by apply Permutation_nil_r in Hperm.
Qed.

(** The answer of the lookup for a door number that reads as [d]. *)
Lemma get_last_with door d t now st :
  PG.int4in door = Some d -> t <> "" ->
  get_last (Some door) (Some t) now st =
    (match order_by_timestamp_desc
             (filter (fun r => for_button d t r = true) (events st)) with
     | [] => json 404 (Error "No events found for this button")
     | r0 :: _ => json 200 (Event (event_of_row r0))
     end,
     received (SelectLast door t) st).
Proof.
  intros Hd Ht. unfold get_last.
  assert (Hdoor : missing (Some door) = false).
  { simpl. destruct door; [discriminate Hd | reflexivity]. }
  assert (Htype : missing (Some t) = false).
  { simpl. by destruct t. }
  rewrite Hdoor, Htype. simpl. unfold pool_query, select_last. rewrite Hd.
  simpl. by destruct (order_by_timestamp_desc _).
Qed.

(** C1, as the code has it: the lookup answers with an active event of the
    button whose [timestamp_utc] is the greatest, and 404 when the button has
    no active event.  Which of several events with that timestamp is
    returned is left to the engine.  [undo_last] then soft-deletes the row
    returned and, the ids being distinct, no other row. *)
Theorem last_for_button_is_latest (door : string) (d : Z) (t : string)
    (now : Z) (st : store) :
  PG.int4in door = Some d -> t <> "" -> consistent st ->
  let candidate r :=
    r ∈ events st /\ door_number r = d /\ event_type r = t
    /\ deleted_at r = None in
  ((~ exists r, candidate r) ->
   fst (get_last (Some door) (Some t) now st)
   = json 404 (Error "No events found for this button"))
  /\ ((exists r, candidate r) ->
      exists r0,
        candidate r0
        /\ (forall r, candidate r -> timestamp_utc r <= timestamp_utc r0)
        /\ fst (get_last (Some door) (Some t) now st)
           = json 200 (Event (event_of_row r0))
        /\ fst (undo_last (Some door) (Some t) now st) = json 204 NoContent
        /\ events (snd (undo_last (Some door) (Some t) now st))
           = (fun r => if decide (r = r0) then mark_deleted now r else r)
               <$> events st).
Proof.
  intros Hd Ht (Hnodup & Hids & Hseq) candidate.
  assert (Hcand : forall r,
    r ∈ filter (fun r => for_button d t r = true) (events st) <-> candidate r).
  { intros r. rewrite list_elem_of_filter, for_button_true.
    unfold candidate. tauto. }
  unfold undo_last. rewrite (get_last_with door d t now st Hd Ht). simpl.
  destruct (order_by_timestamp_desc _) as [|r0 rest] eqn:Hsorted.
  - apply (proj1 (order_by_nil _)) in Hsorted. split; [reflexivity|].
    intros (r & Hr). apply Hcand in Hr. rewrite Hsorted in Hr.
    by apply elem_of_nil in Hr.
  - apply order_by_head in Hsorted as [Hin Hmax]. split.
    { intros Hnone. exfalso. apply Hnone. exists r0. by apply Hcand. }
    intros _. exists r0. apply Hcand in Hin as Hr0.
    split; [exact Hr0|]. split.
    { intros r Hr. apply Hmax. by apply Hcand. }
    split; [reflexivity|]. simpl.
    destruct Hr0 as (Hr0in & _ & _ & Hr0act).
    assert (Hrange : PG.in_int4 (id r0) = true).
    { rewrite Forall_forall in Hids. specialize (Hids r0 Hr0in).
      unfold PG.in_int4, PG.int4_min. unfold PG.int4_max in *. lia. }
    rewrite (delete_event_with _ (id r0) now _ (int4in_pretty _ Hrange)).
    simpl. split.
    + rewrite decide_False; [reflexivity|]. intros Hnil.
      apply (filter_nil_not_elem_of _ _ r0) in Hnil;
        [done | by apply targets_true].
    + apply Forall_fmap_ext_1, Forall_forall. intros r Hk.
      destruct (targets (id r0) r) eqn:Htar.
      * apply targets_true in Htar as [Hid _].
        rewrite decide_True; [reflexivity|].
        by apply (NoDup_fmap_eq id (events st)).
      * rewrite decide_False; [reflexivity|]. intros ->.
        assert (targets (id r0) r0 = true) by by apply targets_true.
        congruence.
Qed.

End Last.

Lemma tied_store_consistent : consistent tied_store.
Proof.
  split; [|split].
  - refine (bool_decide_unpack _ _). by vm_compute.
  - refine (bool_decide_unpack _ _). by vm_compute.
  - by vm_compute.
Qed.

Lemma last_for_button_is_latest_witness :
  exists r0,
    fst (get_last (Some "5") (Some "A_IN") 36000000500 tied_store)
    = json 200 (Event (event_of_row r0))
    /\ fst (undo_last (Some "5") (Some "A_IN") 36000000500 tied_store)
       = json 204 NoContent.
Proof.
  destruct (last_for_button_is_latest "5" 5 "A_IN" 36000000500 tied_store
              ltac:(reflexivity) ltac:(discriminate) tied_store_consistent)
    as [_ Hsome].
  destruct Hsome as (r0 & _ & _ & Hlast & Hundo & _).
  - eexists. split; [left|]. repeat split; reflexivity.
  - exists r0. split; [exact Hlast | exact Hundo].
Defined.

(** C1 fails as stated: with two active events of door 5, [A_IN], recorded
    at the same server time, an engine that meets the contract of
    [ORDER BY timestamp_utc DESC] returns the one with the lower id, and
    [undo_last] soft-deletes that one; another such engine returns the one
    with the higher id. *)
Lemma last_for_button_tie_not_by_id :
  let e1 := {| id := 1; door_number := 5; event_type := "A_IN";
               timestamp_utc := 36000000000; created_at := Some 36000000000;
               deleted_at := None |} in
  let e2 := {| id := 2; door_number := 5; event_type := "A_IN";
               timestamp_utc := 36000000000; created_at := Some 36000000000;
               deleted_at := None |} in
  events tied_store = [e1; e2]
  /\ fst (get_last (engine := lower_id_first) (Some "5") (Some "A_IN") 36000000500
            tied_store)
     = json 200 (Event (event_of_row e1))
  /\ events (snd (undo_last (engine := lower_id_first) (Some "5") (Some "A_IN")
                    36000000500 tied_store))
     = [mark_deleted 36000000500 e1; e2]
  /\ fst (get_last (engine := higher_id_first) (Some "5") (Some "A_IN") 36000000500
            tied_store)
     = json 200 (Event (event_of_row e2)).
Proof. vm_compute. repeat split; reflexivity. Qed.

(** *** The life cycle of an event *)

Section Lifecycle.

Context {engine : Engine}.

Lemma delete_older_than_changes days now st :
  changes now st (snd (pool_query (DeleteOlderThan days) now st)).
Proof.
  unfold pool_query, delete_older_than.
  destruct (PG.in_int4 days && timestamp_in_range (cutoff days now)); simpl.
  - by apply (rows_purged now _ _ (cutoff days now)).
  - apply same_rows; [reflexivity | by left].
Qed.

Lemma post_events_changes b now st :
  changes now st (snd (post_events b now st)).
Proof.
  unfold post_events.
  destruct (negb (JS.truthy _) || negb (JS.truthy _));
    [apply same_rows; [reflexivity | by left]|].
  destruct (JS.lt _ 1 || JS.gt _ 26);
    [apply same_rows; [reflexivity | by left]|].
  destruct (negb (JS.includes _ _));
    [apply same_rows; [reflexivity | by left]|].
  unfold pool_query.
  destruct (insert_event _ _ now (received _ st)) as [[r|] st'] eqn:Hins.
  - apply insert_event_success in Hins
      as (d & t & Hrows & Hev & Hseq & Hmax & _).
    rewrite Hrows. simpl. eapply row_recorded; eauto.
  - apply insert_event_failure in Hins as (Hev & Hseq & _). simpl.
    by apply same_rows.
Qed.

Lemma delete_event_changes id_text now st :
  changes now st (snd (delete_event id_text now st)).
Proof.
  unfold delete_event, pool_query, soft_delete.
  destruct (PG.int4in id_text) as [i|]; simpl.
  - destruct (Nat.eqb _ 0); simpl; by apply (rows_undone now _ _ i).
  - apply same_rows; [reflexivity | by left].
Qed.

(** Every input is one of the four changes. *)
Lemma step_changes days i now st : changes now st (step days i now st).
Proof.
  destruct i as [req|]; [destruct req|]; simpl.
  - apply post_events_changes.
  - apply delete_event_changes.
  - unfold get_recent, pool_query, select_recent.
    destruct (JS.number_or _ _) as [|n]; simpl;
      [apply same_rows; [reflexivity | by left]|].
    destruct (_ && _); simpl; apply same_rows; try reflexivity; by left.
  - unfold get_last.
    destruct (missing _ || missing _);
      [apply same_rows; [reflexivity | by left]|].
    unfold pool_query, select_last. destruct (PG.int4in _); simpl;
      [|apply same_rows; [reflexivity | by left]].
    destruct (sql_limit 1 _); simpl; apply same_rows; try reflexivity; by left.
  - unfold get_export, pool_query, select_all_active. simpl.
    destruct (mapM _ _); [destruct (Date.toISOString <$> _)|]; simpl;
      apply same_rows; try reflexivity; by left.
  - unfold post_cleanup.
    pose proof (delete_older_than_changes days now st) as Hch.
    by destruct (pool_query _ now st) as [[r|] st'].
  - apply delete_older_than_changes.
Qed.

End Lifecycle.

Lemma find_row_cons k r l :
  find_row k (r :: l) = if id r =? k then Some r else find_row k l.
Proof. reflexivity. Qed.

Lemma find_row_Some k l r : find_row k l = Some r -> r ∈ l /\ id r = k.
Proof.
  induction l as [|a l IH]; [discriminate|]. rewrite find_row_cons.
  destruct (id a =? k) eqn:Ha.
  - intros [= ->]. split; [left | lia].
  - intros Hf. destruct (IH Hf) as [Hin Hid]. split; [by right | exact Hid].
Qed.

Lemma find_row_None k l : find_row k l = None <-> forall r, r ∈ l -> id r <> k.
Proof.
  induction l as [|a l IH].
  - split; [|reflexivity]. intros _ r Hr. by apply elem_of_nil in Hr.
  - rewrite find_row_cons. destruct (id a =? k) eqn:Ha; split.
    + discriminate.
    + intros Hall. exfalso. apply (Hall a); [left | lia].
    + intros Hf r Hr. apply elem_of_cons in Hr as [->|Hr]; [lia|].
      by apply IH.
    + intros Hall. apply IH. intros r Hr. apply Hall. by right.
Qed.

Lemma find_row_app k l l' :
  find_row k (l ++ l')
  = match find_row k l with Some r => Some r | None => find_row k l' end.
Proof.
  induction l as [|a l IH]; [reflexivity|].
  rewrite <- app_comm_cons, !find_row_cons. by destruct (id a =? k).
Qed.

Lemma find_row_fmap k (g : row -> row) l :
  (forall r, id (g r) = id r) ->
  find_row k (g <$> l) = g <$> find_row k l.
Proof.
  intros Hg. induction l as [|a l IH]; [reflexivity|].
  rewrite fmap_cons, !find_row_cons, Hg. by destruct (id a =? k).
Qed.

Lemma find_row_filter k (P : row -> Prop) `{forall r, Decision (P r)} l :
  NoDup (id <$> l) ->
  find_row k (filter P l)
  = match find_row k l with
    | Some r => if decide (P r) then Some r else None
    | None => None
    end.
Proof.
  induction l as [|a l IH]; [reflexivity|]. intros Hnd.
  rewrite fmap_cons in Hnd. apply NoDup_cons in Hnd as [Hnotin Hnd].
  rewrite filter_cons, find_row_cons. destruct (id a =? k) eqn:Ha.
  - destruct (decide (P a)).
    + by rewrite find_row_cons, Ha.
    + apply find_row_None. intros r Hr Hid.
      apply list_elem_of_filter in Hr as [_ Hr]. apply Hnotin.
      apply list_elem_of_fmap. exists r. split; [lia | exact Hr].
  - destruct (decide (P a)).
    + rewrite find_row_cons, Ha. by apply IH.
    + by apply IH.
Qed.

Lemma lifecycle_unfold k st :
  lifecycle_of k st
  = match find_row k (events st) with
    | Some r => if active r then Active else Deleted
    | None => if k <=? events_id_seq st then Gone else Unassigned
    end.
Proof. reflexivity. Qed.

(** Each of the four changes keeps the table consistent and moves every
    event id along the state machine. *)
Lemma changes_lifecycle (now : Z) (st st' : store) :
  consistent st -> changes now st st' ->
  consistent st'
  /\ (forall k, transition (lifecycle_of k st) (lifecycle_of k st'))
  /\ (forall k r r',
        find_id k st = Some r -> find_id k st' = Some r' ->
        r' = r \/ (deleted_at r = None /\ r' = mark_deleted now r)).
Proof.
  intros (Hnd & Hids & Hseq) Hch. unfold find_id.
  rewrite Forall_forall in Hids.
  destruct Hch as
    [Hev Hs | r Hev Hid Hact Hs Hmax | j Hev Hs | c Hev Hs].
  - (* the rows are the same *)
    split; [|split].
    + split; [by rewrite Hev|]. split; [|lia].
      rewrite Hev. apply Forall_forall. intros r Hr.
      specialize (Hids r Hr). lia.
    + intros k. rewrite !lifecycle_unfold, Hev.
      destruct (find_row k (events st)); [constructor|].
      destruct (k <=? events_id_seq st) eqn:E1,
               (k <=? events_id_seq st') eqn:E2; try constructor; lia.
    + intros k r r'. rewrite Hev. intros -> [= ->]. by left.
  - (* a row was recorded *)
    split; [|split].
    + split; [|split; [|lia]].
      * rewrite Hev, fmap_app. apply NoDup_app. split; [exact Hnd|].
        split; [|apply NoDup_singleton].
        intros x Hx Hx'. apply list_elem_of_fmap in Hx as (r1 & -> & Hr1).
        simpl in Hx'. apply list_elem_of_singleton in Hx'.
        specialize (Hids r1 Hr1). lia.
      * rewrite Hev. apply Forall_forall. intros r1 Hr1.
        apply elem_of_app in Hr1 as [Hr1|Hr1].
        -- specialize (Hids r1 Hr1). lia.
        -- apply list_elem_of_singleton in Hr1 as ->. lia.
    + intros k. rewrite !lifecycle_unfold, Hev, find_row_app.
      destruct (find_row k (events st)); [constructor|].
      change (find_row k [r]) with (if id r =? k then Some r else None).
      destruct (id r =? k) eqn:E; [unfold active; rewrite Hact|].
      * replace (k <=? events_id_seq st) with false by lia. constructor.
      * destruct (k <=? events_id_seq st) eqn:E1,
                 (k <=? events_id_seq st') eqn:E2; try constructor; lia.
    + intros k r1 r'. rewrite Hev, find_row_app. intros -> [= ->]. by left.
  - (* rows were soft-deleted *)
    assert (Hg : forall r,
      id (if targets j r then mark_deleted now r else r) = id r).
    { intros r. by destruct (targets j r). }
    split; [|split].
    + split; [|split; [|lia]].
      * rewrite Hev, <- list_fmap_compose.
        erewrite (Forall_fmap_ext_1 _ id); [exact Hnd|].
        apply Forall_forall. intros r _. apply Hg.
      * rewrite Hev. apply Forall_forall. intros r' Hr'.
        apply list_elem_of_fmap in Hr' as (r & -> & Hr).
        rewrite Hg, Hs. by apply Hids.
    + intros k. rewrite !lifecycle_unfold, Hev, (find_row_fmap _ _ _ Hg), Hs.
      destruct (find_row k (events st)) as [r|]; simpl; [|constructor].
      destruct (targets j r) eqn:Ht.
      * apply targets_true in Ht as [_ Ht]. unfold active. rewrite Ht. simpl.
        constructor.
      * constructor.
    + intros k r r'. rewrite Hev, (find_row_fmap _ _ _ Hg). intros ->.
      simpl. intros [= <-]. destruct (targets j r) eqn:Ht; [|by left].
      apply targets_true in Ht as [_ Ht]. by right.
  - (* rows were purged *)
    split; [|split].
    + split; [|split; [|lia]].
      * rewrite Hev. eapply sublist_NoDup; [exact Hnd|].
        apply fmap_sublist, sublist_filter.
      * rewrite Hev. apply Forall_forall. intros r Hr.
        apply list_elem_of_filter in Hr as [_ Hr]. rewrite Hs. by apply Hids.
    + intros k. rewrite !lifecycle_unfold, Hev, Hs.
      rewrite (find_row_filter k _ _ Hnd).
      destruct (find_row k (events st)) as [r|] eqn:Hf; [|constructor].
      destruct (decide (older_than c r = false)); [constructor|].
      apply find_row_Some in Hf as [Hin Hid]. specialize (Hids r Hin).
      replace (k <=? events_id_seq st) with true by lia.
      destruct (active r); constructor.
    + intros k r r'. rewrite Hev, (find_row_filter k _ _ Hnd). intros ->.
      destruct (decide _); [|discriminate]. intros [= ->]. by left.
Qed.

Section StateMachine.

Context {engine : Engine}.

(** C4: every input keeps the ids distinct and takes each event id along
    the state machine: it stays as it is, an unassigned id becomes an
    active event, an active event becomes deleted, and an active or deleted
    event goes for good.  A row that is still there afterwards is the same
    row, except that [deleted_at] may have been set from null. *)
Theorem lifecycle_preserved (days : Z) (i : input) (now : Z) (st : store) :
  consistent st ->
  let st' := step days i now st in
  consistent st'
  /\ (forall k, transition (lifecycle_of k st) (lifecycle_of k st'))
  /\ (forall k r r',
        find_id k st = Some r -> find_id k st' = Some r' ->
        r' = r \/ (deleted_at r = None /\ r' = mark_deleted now r)).
Proof.
  intros Hc st'. apply changes_lifecycle; [exact Hc | apply step_changes].
Qed.

End StateMachine.

Lemma empty_store_consistent : consistent empty_store.
Proof. split; [constructor|]. split; [constructor|]. by vm_compute. Qed.

(** Every table the server can reach from the empty one is consistent. *)
Lemma reachable_consistent {engine : Engine} (days : Z)
    (inputs : list (input * Z)) :
  consistent (foldl (fun st p => step days (fst p) (snd p) st)
                    empty_store inputs).
Proof.
  assert (Hgen : forall st, consistent st ->
    consistent (foldl (fun st p => step days (fst p) (snd p) st) st inputs)).
  { induction inputs as [|[i now] inputs IH]; intros st Hc; [exact Hc|].
    simpl. apply IH.
    apply (changes_lifecycle now st); [exact Hc | apply step_changes]. }
  apply Hgen, empty_store_consistent.
Qed.

Lemma lifecycle_preserved_witness :
  consistent (step 7 (Http (DeleteEvent "2")) 36000000500 tied_store)
  /\ transition (lifecycle_of 2 tied_store)
       (lifecycle_of 2 (step 7 (Http (DeleteEvent "2")) 36000000500 tied_store)).
Proof.
  destruct (lifecycle_preserved 7 (Http (DeleteEvent "2")) 36000000500
              tied_store tied_store_consistent) as (Hc & Ht & _).
  split; [exact Hc | apply Ht].
Defined.

(** *** The CSV export *)

Lemma mapM_total {A B} (f : A -> option B) (g : A -> B) (l : list A) :
  Forall (fun x => f x = Some (g x)) l -> mapM f l = Some (g <$> l).
Proof.
  induction 1 as [|x l Hx Hl IH]; [reflexivity|].
  simpl. rewrite Hx. simpl. rewrite IH. reflexivity.
Qed.

Lemma of_timestamp_valid us :
  valid_date us -> Date.of_timestamp us = Some (us / 1000).
Proof.
  unfold valid_date, Date.of_timestamp. intros [ms Hms].
  by destruct (_ && _).
Qed.

Lemma csv_row_valid r :
  valid_date (timestamp_utc r) -> csv_row (event_of_row r) = Some (export_line r).
Proof.
  intros Hv. unfold csv_row, event_of_row. simpl.
  rewrite (of_timestamp_valid _ Hv). reflexivity.
Qed.

Lemma active_rows_app st l r :
  events st = l ++ [r] -> deleted_at r = None ->
  active_rows st = filter (fun r => active r = true) l ++ [r].
Proof.
  intros Hev Hact. unfold active_rows. rewrite Hev, filter_app.
  f_equal. rewrite filter_cons, decide_True; [reflexivity|].
  unfold active. by rewrite Hact.
Qed.

(** A soft delete takes its targets, and only those, out of the active
    rows. *)
Lemma undo_active_count i now (l : list row) :
  (length (filter (fun r => active r = true)
             ((fun r => if targets i r then mark_deleted now r else r) <$> l))
   + length (filter (fun r => targets i r = true) l))%nat
  = length (filter (fun r => active r = true) l).
Proof.
  induction l as [|a l IH]; [reflexivity|].
  rewrite fmap_cons, !filter_cons. destruct (targets i a) eqn:Ht.
  - assert (Ha : active a = true).
    { apply targets_true in Ht as [_ Ht]. unfold active. by rewrite Ht. }
    rewrite decide_False by (simpl; discriminate).
    rewrite decide_True by reflexivity. rewrite decide_True by exact Ha.
    simpl. lia.
  - rewrite (decide_False (P := false = true)) by discriminate.
    destruct (decide (active a = true)); simpl; lia.
Qed.

Lemma targets_at_most_one i (l : list row) :
  NoDup (id <$> l) ->
  (length (filter (fun r => targets i r = true) l) <= 1)%nat.
Proof.
  induction l as [|a l IH]; [simpl; lia|]. rewrite fmap_cons. intros Hnd.
  apply NoDup_cons in Hnd as [Hnotin Hnd]. rewrite filter_cons.
  destruct (decide (targets i a = true)) as [Ht|Ht]; [|by apply IH].
  apply targets_true in Ht as [Hid _].
  rewrite (proj2 (hit_nil i l)); [simpl; lia|].
  intros (r & Hin & Hr & _). apply Hnotin. apply list_elem_of_fmap.
  exists r. split; [congruence | exact Hin].
Qed.

Lemma count_status_cons code r l :
  count_status code (r :: l)
  = ((if decide (status r = code) then 1 else 0) + count_status code l)%nat.
Proof.
  unfold count_status. rewrite filter_cons. by destruct (decide _).
Qed.

(** *** The rendering of timestamps

    The calendar. *)

Lemma all_from_spec f n x :
  all_from f n x = true ->
  forall y, x <= y < x + Z.of_nat n -> f y = true.
Proof.
  revert x. induction n as [|n IH]; intros x Hall y Hy; [lia|].
  cbn [all_from] in Hall. apply andb_prop in Hall as [Hx Hrest].
  destruct (decide (y = x)) as [->|Hne]; [exact Hx|].
  apply (IH (x + 1) Hrest). lia.
Qed.

Lemma month_day_ok_all doy : 0 <= doy <= 365 -> month_day_ok doy = true.
Proof.
  intros Hdoy.
  apply (all_from_spec month_day_ok (Z.to_nat 366) 0); [by vm_compute | lia].
Qed.

(** The year of the era that [Date.civil_from_days] gives for day [doe] of
    an era of 400 years is the year that holds that day. *)
Lemma year_of_era doe :
  0 <= doe < 146097 ->
  let yoe := (doe - doe / 1460 + doe / 36524 - doe / 146096) / 365 in
  0 <= yoe <= 399
  /\ 365 * yoe + yoe / 4 - yoe / 100 <= doe
  /\ (doe < 365 * (yoe + 1) + (yoe + 1) / 4 - (yoe + 1) / 100 \/ yoe = 399).
Proof. intros H. cbv zeta. Z.div_mod_to_equations. lia. Qed.

Lemma days_in_month_leap y m :
  ISO8601.days_in_month y m
  = ISO8601.days_in_month 1 m
    + (if (m =? 2) && ISO8601.is_leap y then 1 else 0).
Proof.
  unfold ISO8601.days_in_month. change (ISO8601.is_leap 1) with false.
  destruct (m =? 2); [by destruct (ISO8601.is_leap y)|].
  cbn [andb]. lia.
Qed.

Lemma days_before_month_leap y m :
  ISO8601.days_before_month y m
  = ISO8601.days_before_month 1 m
    + (if (2 <? m) && ISO8601.is_leap y then 1 else 0).
Proof.
  unfold ISO8601.days_before_month. change (ISO8601.is_leap 1) with false.
  rewrite andb_false_r. lia.
Qed.

Lemma is_leap_era y e : ISO8601.is_leap (y + 400 * e) = ISO8601.is_leap y.
Proof.
  unfold ISO8601.is_leap.
  replace (y + 400 * e) with (y + (100 * e) * 4) at 1 by lia.
  replace (y + 400 * e) with (y + (4 * e) * 100) at 1 by lia.
  replace (y + 400 * e) with (y + e * 400) by lia.
  by rewrite !Z.mod_add by lia.
Qed.

(** The date of a day number is a date of the calendar, and its day number
    in the calendar is the one it came from. *)
Lemma civil_from_days_spec days y m d :
  Date.civil_from_days days = (y, m, d) ->
  1 <= m <= 12 /\ 1 <= d <= ISO8601.days_in_month y m
  /\ ISO8601.days_from_civil y m d = days
  /\ 400 * ((days + 719468) / 146097) <= y
     <= 400 * ((days + 719468) / 146097) + 400.
Proof.
  unfold Date.civil_from_days. cbv zeta.
  set (z := days + 719468). set (era := z / 146097).
  set (doe := z - era * 146097).
  assert (Hdoe : 0 <= doe < 146097).
  { subst doe era. Z.div_mod_to_equations. lia. }
  pose proof (year_of_era doe Hdoe) as (Hyoe & Hlow & Hhigh). cbv zeta in *.
  set (yoe := (doe - doe / 1460 + doe / 36524 - doe / 146096) / 365) in *.
  set (doy := doe - (365 * yoe + yoe / 4 - yoe / 100)).
  assert (Hdoy : 0 <= doy <= 365).
  { subst doy. clearbody yoe doe. Z.div_mod_to_equations. lia. }
  assert (Hlong : doy = 365 -> ISO8601.is_leap (yoe + 1) = true).
  { unfold ISO8601.is_leap. subst doy. clearbody yoe doe.
    Z.div_mod_to_equations. lia. }
  pose proof (month_day_ok_all doy Hdoy) as Hok.
  unfold month_day_ok in Hok. cbv zeta in Hok.
  set (mp := (5 * doy + 2) / 153) in *.
  set (d0 := doy - (153 * mp + 2) / 5 + 1) in *.
  set (m0 := if mp <? 10 then mp + 3 else mp - 9) in *.
  intros [= <- <- <-].
  repeat (apply andb_prop in Hok as [Hok ?]).
  assert (Hz : days = era * 146097 + (365 * yoe + yoe / 4 - yoe / 100 + doy)
                      - 719468) by (subst doy doe z; lia).
  clearbody doy yoe era mp m0 d0. clear Hlow Hhigh Hdoe doe z.
  split; [lia|].
  unfold ISO8601.days_from_civil, ISO8601.days_before_year. cbv zeta.
  rewrite days_in_month_leap, days_before_month_leap.
  destruct (doy =? 365) eqn:E365.
  - assert (m0 = 2) as -> by lia. apply Z.eqb_eq in E365.
    change (2 <=? 2) with true in *. cbv iota in *.
    replace (yoe + era * 400 + 1) with (yoe + 1 + 400 * era) by lia.
    rewrite is_leap_era, (Hlong E365).
    change (ISO8601.days_in_month 1 2) with 28 in *.
    change (ISO8601.days_before_month 1 2) with 31 in *.
    change (2 =? 2) with true. change (2 <? 2) with false. cbn [andb].
    split; [lia|]. split; [|lia].
    rewrite Hz. Z.div_mod_to_equations. lia.
  - destruct (m0 <=? 2) eqn:Hm.
    + replace (yoe + era * 400 + 1) with (yoe + 1 + 400 * era) by lia.
      rewrite is_leap_era.
      replace (2 <? m0) with false by lia. cbn [andb].
      split; [|split].
      * destruct ((m0 =? 2) && ISO8601.is_leap (yoe + 1)); lia.
      * rewrite Hz. Z.div_mod_to_equations. lia.
      * lia.
    + replace (yoe + era * 400 + 0) with (yoe + 400 * era) by lia.
      rewrite is_leap_era.
      replace (2 <? m0) with true by lia. replace (m0 =? 2) with false by lia.
      cbn [andb].
      split; [lia|]. split; [|lia].
      rewrite Hz. unfold ISO8601.is_leap.
      destruct ((yoe mod 4 =? 0)
                && (negb (yoe mod 100 =? 0) || (yoe mod 400 =? 0))) eqn:El;
        Z.div_mod_to_equations; lia.
Qed.

(** Digits. *)

Lemma digits_app (a b : nat) s acc :
  ISO8601.digits (a + b) s acc
  = '(v, r) ← ISO8601.digits a s acc; ISO8601.digits b r v.
Proof.
  revert s acc. induction a as [|a IH]; intros s acc; [reflexivity|].
  simpl. destruct s as [|c s]; [reflexivity|].
  destruct (PG.is_digit c); [apply IH | reflexivity].
Qed.

Lemma digits_zeros (k w : nat) s :
  ISO8601.digits (k + w) (Date.zeros k +:+ s) 0 = ISO8601.digits w s 0.
Proof. induction k as [|k IH]; [reflexivity | exact IH]. Qed.

Lemma string_app_assoc (a b c : string) : (a +:+ b) +:+ c = a +:+ (b +:+ c).
Proof.
  induction a as [|x a IH]; [reflexivity|].
  change (String x ((a +:+ b) +:+ c) = String x (a +:+ (b +:+ c))).
  by rewrite IH.
Qed.

Lemma string_length_app (a b : string) :
  String.length (a +:+ b) = (String.length a + String.length b)%nat.
Proof.
  induction a as [|x a IH]; [reflexivity|].
  change (S (String.length (a +:+ b))
          = S (String.length a + String.length b)).
  by rewrite IH.
Qed.

(** The digits that [pretty] puts in front of [s] for a positive [x]:
    as many as [x] needs, and they read as [x]. *)
Lemma digits_pretty_go (x : N) (s : string) :
  (0 < x)%N ->
  exists p,
    pretty_N_go x s = p +:+ s
    /\ 10 ^ (Z.of_nat (String.length p) - 1) <= Z.of_N x
    /\ (1 <= String.length p)%nat
    /\ forall rest,
         ISO8601.digits (String.length p) (p +:+ rest) 0 = Some (Z.of_N x, rest).
Proof.
  revert s. induction (N.lt_wf_0 x) as [x _ IH]. intros s Hx.
  rewrite pretty_N_go_step by exact Hx.
  destruct (pretty_N_char_digit (x `mod` 10)%N) as [Hdig Hval].
  { by apply N.mod_lt. }
  pose proof (N.div_mod x 10 ltac:(done)) as Hdm.
  pose proof (N.mod_lt x 10 ltac:(done)) as Hlt.
  destruct (decide (x `div` 10 = 0)%N) as [Hz|Hnz].
  - rewrite Hz, pretty_N_go_0. exists (String (pretty_N_char (x `mod` 10)) "").
    split; [reflexivity|]. split; [simpl; lia|]. split; [simpl; lia|].
    intros rest. simpl. rewrite Hdig, Hval. do 2 f_equal.
    rewrite Hz in Hdm. lia.
  - destruct (IH (x `div` 10)%N) with
      (s := String (pretty_N_char (x `mod` 10)) s)
      as (p & Hp & Hlow & Hlen & Hread);
      [apply N.div_lt; lia | by apply N.neq_0_lt_0 |].
    exists (p +:+ String (pretty_N_char (x `mod` 10)) "").
    rewrite Hp, string_app_assoc. split; [reflexivity|].
    rewrite string_length_app. cbn [String.length].
    split.
    { replace (Z.of_nat (String.length p + 1) - 1)
        with (Z.succ (Z.of_nat (String.length p) - 1)) by lia.
      rewrite Z.pow_succ_r by lia.
      generalize dependent (x `mod` 10)%N. intros r.
      generalize dependent (x `div` 10)%N. intros q. lia. }
    split; [lia|].
    intros rest. rewrite string_app_assoc, digits_app. simpl.
    rewrite Hread. simpl. rewrite Hdig, Hval. do 2 f_equal.
    generalize dependent (x `mod` 10)%N. intros r.
    generalize dependent (x `div` 10)%N. intros q. lia.
Qed.

(** A number below [10 ^ w], padded to [w] digits, reads as itself. *)
Lemma digits_pad (w : nat) (n : Z) (rest : string) :
  (1 <= w)%nat -> 0 <= n < 10 ^ Z.of_nat w ->
  ISO8601.digits w (Date.pad w n +:+ rest) 0 = Some (n, rest).
Proof.
  intros Hw [H0 Hn]. unfold Date.pad.
  assert (Hp : exists p, pretty n = p /\ (1 <= String.length p <= w)%nat
            /\ ISO8601.digits (String.length p) (p +:+ rest) 0
               = Some (n, rest)).
  { destruct n as [|q|q]; [| |lia].
    - exists "0". repeat split; [simpl; lia | exact Hw].
    - destruct (digits_pretty_go (N.pos q) "" ltac:(lia))
        as (p & Hp & Hlow & Hlen & Hread).
      exists (p +:+ "").
      change (pretty (Z.pos q)) with (pretty_N_go (N.pos q) "").
      split; [exact Hp|].
      assert (Hpe : p +:+ "" = p).
      { clear. induction p as [|c p IH]; [reflexivity|].
        change (String c (p +:+ "") = String c p). by rewrite IH. }
      rewrite Hpe. split; [|apply Hread]. split; [exact Hlen|].
      change (Z.of_N (N.pos q)) with (Z.pos q) in Hlow.
      assert (10 ^ (Z.of_nat (String.length p) - 1) < 10 ^ Z.of_nat w) by lia.
      apply Z.pow_lt_mono_r_iff in H; lia. }
  destruct Hp as (p & -> & Hlen & Hread).
  rewrite string_app_assoc.
  replace w with ((w - String.length p) + String.length p)%nat at 1 by lia.
  rewrite digits_zeros. exact Hread.
Qed.

Lemma expect_head c rest : ISO8601.expect c (String c "" +:+ rest) = Some rest.
Proof.
  change (String c "" +:+ rest) with (String c rest). unfold ISO8601.expect.
  by rewrite Ascii.eqb_refl.
Qed.

Lemma digit_no_sign c :
  PG.is_digit c = true -> Ascii.eqb c "+" = false /\ Ascii.eqb c "-" = false.
Proof.
  destruct c as [[] [] [] [] [] [] [] []]; try discriminate; by split.
Qed.

(** The year as [toISOString] writes it reads as the year. *)
Lemma year_written y rest :
  -999999 <= y <= 999999 ->
  let written :=
    if (0 <=? y) && (y <=? 9999) then Date.pad 4 y
    else (if y <? 0 then "-" else "+") +:+ Date.pad 6 (Z.abs y) in
  ISO8601.year (written +:+ rest) = Some (y, rest).
Proof.
  intros Hy. cbv zeta.
  destruct ((0 <=? y) && (y <=? 9999)) eqn:Hfour.
  - pose proof (digits_pad 4 y rest ltac:(lia) ltac:(lia)) as Hread.
    unfold ISO8601.year.
    destruct (Date.pad 4 y +:+ rest) as [|c r]; [discriminate Hread|].
    assert (Hc : PG.is_digit c = true).
    { cbn [ISO8601.digits] in Hread. by destruct (PG.is_digit c). }
    destruct (digit_no_sign c Hc) as [-> ->]. exact Hread.
  - rewrite string_app_assoc.
    destruct (y <? 0) eqn:Hneg.
    + change ("-" +:+ Date.pad 6 (Z.abs y) +:+ rest)
        with (String "-" (Date.pad 6 (Z.abs y) +:+ rest)).
      unfold ISO8601.year.
      change (Ascii.eqb "-" "+") with false. change (Ascii.eqb "-" "-") with true.
      cbv iota.
      rewrite (digits_pad 6 (Z.abs y) rest) by lia.
      cbn [mbind option_bind]. do 2 f_equal. lia.
    + change ("+" +:+ Date.pad 6 (Z.abs y) +:+ rest)
        with (String "+" (Date.pad 6 (Z.abs y) +:+ rest)).
      unfold ISO8601.year.
      change (Ascii.eqb "+" "+") with true. cbv iota.
      rewrite (digits_pad 6 (Z.abs y) rest) by lia.
      do 2 f_equal. lia.
Qed.

(** Reading what [toISOString] writes gives the time value back. *)
Lemma read_toISOString ms :
  - Date.max_time <= ms <= Date.max_time ->
  ISO8601.read (Date.toISOString ms) = Some ms.
Proof.
  unfold Date.max_time. intros Hms. unfold Date.toISOString. cbv zeta.
  set (days := ms / 86400000). set (tod := ms mod 86400000).
  assert (Hdays_range : -100000000 <= days <= 100000000).
  { unfold days. split; [apply Z.div_le_lower_bound | apply Z.div_le_upper_bound]; lia. }
  assert (Htod : 0 <= tod < 86400000) by (apply Z.mod_pos_bound; lia).
  assert (Hsplit : ms = 86400000 * days + tod) by (apply Z.div_mod; lia).
  destruct (Date.civil_from_days days) as [[y m] d] eqn:Hcivil.
  apply civil_from_days_spec in Hcivil as (Hm & Hd & Hback & Hy).
  assert (He : -680 <= (days + 719468) / 146097 <= 690).
  { split; [apply Z.div_le_lower_bound | apply Z.div_le_upper_bound]; lia. }
  assert (Hdim : ISO8601.days_in_month y m <= 31).
  { unfold ISO8601.days_in_month.
    repeat match goal with |- context [if ?b then _ else _] => destruct b end;
      lia. }
  unfold ISO8601.read.
  rewrite (year_written y) by lia. cbn [mbind option_bind].
  rewrite expect_head. cbn [mbind option_bind].
  rewrite digits_pad by lia. cbn [mbind option_bind].
  rewrite expect_head. cbn [mbind option_bind].
  rewrite digits_pad by lia. cbn [mbind option_bind].
  rewrite expect_head. cbn [mbind option_bind].
  assert (Hh : 0 <= tod / 3600000 < 24).
  { split; [apply Z.div_pos | apply Z.div_lt_upper_bound]; lia. }
  assert (Hmi : 0 <= tod / 60000 mod 60 < 60) by (apply Z.mod_pos_bound; lia).
  assert (Hs : 0 <= tod / 1000 mod 60 < 60) by (apply Z.mod_pos_bound; lia).
  assert (Hf : 0 <= tod mod 1000 < 1000) by (apply Z.mod_pos_bound; lia).
  rewrite digits_pad by lia. cbn [mbind option_bind].
  rewrite expect_head. cbn [mbind option_bind].
  rewrite digits_pad by lia. cbn [mbind option_bind].
  rewrite expect_head. cbn [mbind option_bind].
  rewrite digits_pad by lia. cbn [mbind option_bind].
  rewrite expect_head. cbn [mbind option_bind].
  rewrite (digits_pad 3 (tod mod 1000) "Z") by lia. cbn [mbind option_bind].
  change (ISO8601.expect "Z" "Z") with (Some ""). cbn [mbind option_bind].
  change (String.eqb "" "") with true.
  replace (true && (1 <=? m) && (m <=? 12) && (1 <=? d)
           && (d <=? ISO8601.days_in_month y m)
           && (tod / 3600000 <? 24) && (tod / 60000 mod 60 <? 60)
           && (tod / 1000 mod 60 <? 60)) with true by lia.
  f_equal. rewrite Hback, Hsplit.
  clear - Htod. Z.div_mod_to_equations. lia.
Qed.

Lemma valid_date_range us :
  valid_date us -> - Date.max_time <= us / 1000 <= Date.max_time.
Proof.
  unfold valid_date, Date.of_timestamp. cbv zeta.
  destruct (_ && _) eqn:Hr; [lia|]. intros [ms Hms]. discriminate Hms.
Qed.

(** The line written for a row is a serialized row in the sense of
    [exported]. *)
Lemma export_line_exported r :
  valid_date (timestamp_utc r) -> exported r (export_line r).
Proof.
  intros Hv. exists (Date.toISOString (timestamp_utc r / 1000)).
  split; [reflexivity|]. apply read_toISOString. by apply valid_date_range.
Qed.

Section ExportLines.

Context {engine : Engine}.

Lemma active_rows_same st st' :
  events st' = events st -> active_rows st' = active_rows st.
Proof. unfold active_rows. by intros ->. Qed.

(** One request other than a cleanup: the active rows grow by one on a 201,
    shrink by one on a 204, and are as many as before otherwise. *)
Lemma handle_counts days req now st :
  is_cleanup req = false -> consistent st ->
  let out := handle days req now st in
  (length (active_rows (snd out))
   + (if decide (status (fst out) = 204%Z) then 1 else 0)
   = length (active_rows st)
     + (if decide (status (fst out) = 201%Z) then 1 else 0))%nat
  /\ (valid_date now -> dated st -> dated (snd out)).
Proof.
  intros Hreq (Hnd & _ & _).
  destruct req as [b|id_text|limit|door type| |]; try discriminate Hreq;
    simpl.
  - (* POST /api/events *)
    unfold post_events.
    destruct (negb (JS.truthy _) || negb (JS.truthy _)); [by simpl|].
    destruct (JS.lt _ 1 || JS.gt _ 26); [by simpl|].
    destruct (negb (JS.includes _ _)); [by simpl|].
    unfold pool_query.
    destruct (insert_event _ _ now (received _ st)) as [[r|] st'] eqn:Hins.
    + apply insert_event_success in Hins as (d & t & Hrows & Hev & _).
      rewrite Hrows. simpl. split.
      * rewrite (active_rows_app st' _ _ Hev eq_refl), length_app. simpl.
        unfold active_rows. lia.
      * intros Hnow Hdated. unfold dated. rewrite Hev.
        apply Forall_app. split; [exact Hdated|]. by constructor.
    + apply insert_event_failure in Hins as (Hev & _). simpl.
      split; [by rewrite (active_rows_same _ _ Hev)|].
      intros _ Hdated. unfold dated. by rewrite Hev.
  - (* DELETE /api/events/:id *)
    destruct (PG.int4in id_text) as [i|] eqn:Hi.
    + rewrite (delete_event_with id_text i now st Hi). simpl.
      pose proof (undo_active_count i now (events st)) as Hcount.
      pose proof (targets_at_most_one i (events st) Hnd) as Hone.
      unfold active_rows. simpl. split.
      * destruct (decide (filter _ (events st) = [])) as [Hnil|Hhit]; simpl.
        -- rewrite Hnil in Hcount. simpl in Hcount. lia.
        -- destruct (filter (fun r => targets i r = true) (events st));
             [done|]. simpl in *. lia.
      * intros _ Hdated. unfold dated. simpl.
        apply Forall_fmap. eapply Forall_impl; [exact Hdated|].
        intros r Hr. simpl. by destruct (targets i r).
    + unfold delete_event, pool_query, soft_delete. rewrite Hi. by simpl.
  - (* GET /api/events/recent *)
    unfold get_recent, pool_query, select_recent.
    destruct (JS.number_or _ _) as [|n]; [by simpl|].
    by destruct (_ && _).
  - (* GET /api/events/last *)
    unfold get_last. destruct (missing _ || missing _); [by simpl|].
    unfold pool_query, select_last. destruct (PG.int4in _); [|by simpl].
    simpl. by destruct (sql_limit 1 _).
  - (* GET /api/events/export *)
    unfold get_export, pool_query, select_all_active. simpl.
    destruct (mapM _ _); [destruct (Date.toISOString <$> _)|]; by simpl.
Qed.

Lemma export_lines (l : list row) :
  Forall (fun r => valid_date (timestamp_utc r)) l ->
  mapM csv_row (event_of_row <$> l) = Some (export_line <$> l).
Proof.
  induction 1 as [|r l Hr Hl IH]; [reflexivity|].
  rewrite !fmap_cons. cbn [mapM]. rewrite (csv_row_valid r Hr). simpl.
  rewrite IH. reflexivity.
Qed.

(** The export of a table whose rows all have a timestamp in the range of
    [Date]. *)
Lemma get_export_with now st :
  valid_date now -> dated st ->
  exists filename,
    fst (get_export now st)
    = json 200 (Csv filename
        (csv_headers
         +:+ String.concat newline
               (export_line <$> order_by_timestamp_desc (active_rows st)))).
Proof.
  intros Hnow Hdated.
  assert (Hlines :
    mapM csv_row (event_of_row <$> order_by_timestamp_desc (active_rows st))
    = Some (export_line <$> order_by_timestamp_desc (active_rows st))).
  { apply export_lines. apply Forall_forall. intros r Hr.
    rewrite (order_by_permutation (active_rows st)) in Hr.
    apply active_rows_spec in Hr as [Hr _].
    unfold dated in Hdated. rewrite Forall_forall in Hdated. by apply Hdated. }
  unfold get_export, pool_query, select_all_active.
  cbv beta iota zeta. cbn [rows].
  change (active_rows (received SelectAllActive st)) with (active_rows st).
  rewrite Hlines, (of_timestamp_valid now Hnow).
  eexists. reflexivity.
Qed.

End ExportLines.

Section ExportRuns.

Context {engine : Engine}.

Lemma run_cons days req now reqs st :
  run days ((req, now) :: reqs) st
  = (fst (handle days req now st)
       :: fst (run days reqs (snd (handle days req now st))),
     snd (run days reqs (snd (handle days req now st)))).
Proof.
  simpl. destruct (handle days req now st) as [resp st1]. simpl.
  by destruct (run days reqs st1).
Qed.

(** Over a run without cleanup, the active rows are those recorded (201)
    less those undone (204). *)
Lemma run_counts days reqs st :
  Forall (fun p => is_cleanup (fst p) = false /\ valid_date (snd p)) reqs ->
  consistent st -> dated st ->
  consistent (snd (run days reqs st))
  /\ dated (snd (run days reqs st))
  /\ (length (active_rows (snd (run days reqs st)))
      + count_status 204 (fst (run days reqs st))
      = length (active_rows st)
        + count_status 201 (fst (run days reqs st)))%nat.
Proof.
  intros Hreqs. revert st.
  induction Hreqs as [|[req now] reqs [Hreq Hnow] _ IH]; intros st Hc Hd.
  - simpl. unfold count_status. simpl. split; [exact Hc|].
    split; [exact Hd | lia].
  - rewrite run_cons. simpl in Hreq, Hnow.
    destruct (handle_counts days req now st Hreq Hc) as [Hcount Hdated].
    assert (Hc1 : consistent (snd (handle days req now st))).
    { apply (changes_lifecycle now st); [exact Hc|].
      apply (step_changes days (Http req) now st). }
    destruct (IH _ Hc1 (Hdated Hnow Hd)) as (Hc2 & Hd2 & Hcount2).
    simpl. split; [exact Hc2|]. split; [exact Hd2|].
    rewrite !count_status_cons.
    destruct (decide (status (handle days req now st).1 = 204)),
             (decide (status (handle days req now st).1 = 201)); lia.
Qed.

(** C7, as the code has it: the export is the header line followed by one
    line per active event, the lines separated by a line feed, each made
    of [id], [door_number], [event_type] and [timestamp_utc] in that order,
    the lines in descending order of [timestamp_utc].  The timestamp is an
    ISO-8601 text in UTC with
    millisecond precision: read back, it is [timestamp_utc] with the
    microseconds dropped.  After a run of requests without cleanup the
    number of lines is that of the active events at the start, plus the
    201 answers, less the 204 answers: N - M from the empty table. *)
Theorem export_one_line_per_active_event (days : Z) (st0 : store)
    (reqs : list (request * Z)) (now : Z) :
  consistent st0 -> dated st0 ->
  Forall (fun p => is_cleanup (fst p) = false /\ valid_date (snd p)) reqs ->
  valid_date now ->
  let answers := fst (run days reqs st0) in
  let st := snd (run days reqs st0) in
  exists filename sorted lines,
    fst (get_export now st)
    = json 200 (Csv filename
        ("id,door_number,event_type,timestamp_utc
" +:+ String.concat (String "010" "") lines))
    /\ Forall2 exported sorted lines
    /\ sorted ≡ₚ active_rows st
    /\ StronglySorted ts_desc sorted
    /\ (length sorted + count_status 204 answers
        = length (active_rows st0) + count_status 201 answers)%nat
    /\ (st0 = empty_store ->
        length sorted
        = (count_status 201 answers - count_status 204 answers)%nat).
Proof.
  intros Hc0 Hd0 Hreqs Hnow answers st.
  destruct (run_counts days reqs st0 Hreqs Hc0 Hd0) as (Hc & Hd & Hcount).
  fold st answers in Hc, Hd, Hcount.
  destruct (get_export_with now st Hnow Hd) as [filename Hexport].
  exists filename, (order_by_timestamp_desc (active_rows st)),
    (export_line <$> order_by_timestamp_desc (active_rows st)).
  split; [exact Hexport|]. split.
  { apply Forall2_fmap_r, Forall_Forall2_diag, Forall_forall. intros r Hr.
    apply export_line_exported.
    rewrite (order_by_permutation (active_rows st)) in Hr.
    apply active_rows_spec in Hr as [Hr _].
    unfold dated in Hd. rewrite Forall_forall in Hd. by apply Hd. }
  split; [apply order_by_permutation|].
  split; [apply order_by_sorted|].
  rewrite (Permutation_length (order_by_permutation (active_rows st))).
  split; [exact Hcount|]. intros Hempty. rewrite Hempty in Hcount.
  change (length (active_rows empty_store)) with 0%nat in Hcount. lia.
Qed.

End ExportRuns.

Lemma export_one_line_per_active_event_witness :
  exists filename sorted lines,
    fst (get_export 1759517140000000
           (snd (run 7 two_records_one_undo empty_store)))
    = json 200 (Csv filename
        ("id,door_number,event_type,timestamp_utc
" +:+ String.concat (String "010" "") lines))
    /\ Forall2 exported sorted lines
    /\ length sorted = 1%nat.
Proof.
  destruct (export_one_line_per_active_event 7 empty_store
              two_records_one_undo 1759517140000000)
    as (filename & sorted & lines & Hcsv & Hlines & _ & _ & _ & Hn).
  - exact empty_store_consistent.
  - constructor.
  - repeat constructor; vm_compute; eexists; reflexivity.
  - vm_compute. eexists. reflexivity.
  - exists filename, sorted, lines.
    split; [exact Hcsv|]. split; [exact Hlines | exact (Hn eq_refl)].
Defined.

(** C7 fails as stated: two events recorded 333 microseconds apart have
    different values of [timestamp_utc], and the export writes the same
    timestamp for both; the microseconds are not in the file. *)
Lemma export_drops_microseconds :
  let st := snd (run 7 two_records_same_millisecond empty_store) in
  timestamp_utc <$> events st = [1759517123123456; 1759517123123789]
  /\ body (fst (get_export 1759517140000000 st))
     = Csv "door_events_2025-10-03T18-45-40.csv"
           "id,door_number,event_type,timestamp_utc
2,5,A_IN,2025-10-03T18:45:23.123Z
1,5,A_IN,2025-10-03T18:45:23.123Z".
Proof. vm_compute. split; reflexivity. Qed.

Lemma cleanup_removes_expired_witness :
  let now := 10 * PG.microseconds_per_day in
  let old := {| id := 1; door_number := 3; event_type := "A_OUT";
                timestamp_utc := 2 * PG.microseconds_per_day;
                created_at := Some (2 * PG.microseconds_per_day);
                deleted_at := None |} in
  let recent := {| id := 2; door_number := 3; event_type := "B_IN";
                   timestamp_utc := 4 * PG.microseconds_per_day;
                   created_at := Some (4 * PG.microseconds_per_day);
                   deleted_at := None |} in
  recent ∈ events (snd (post_cleanup (DATA_RETENTION_DAYS None) now
                          retention_store))
  /\ old ∉ events (snd (post_cleanup (DATA_RETENTION_DAYS None) now
                          retention_store)).
Proof.
  intros now old recent.
  destruct (cleanup_removes_expired (DATA_RETENTION_DAYS None) now
              retention_store ltac:(reflexivity) ltac:(reflexivity))
    as (_ & _ & Hdays).
  split.
  - apply (Hdays eq_refl recent); [right; left | reflexivity].
  - apply (Hdays eq_refl old); [left | reflexivity].
Defined.

Lemma cleanup_idempotent_witness :
  let now := 10 * PG.microseconds_per_day in
  fst (post_cleanup 7 now (snd (post_cleanup 7 now retention_store)))
  = json 200 (DeletedCount 0).
Proof.
  intros now.
  apply (cleanup_idempotent 7 now now retention_store
           ltac:(reflexivity) ltac:(reflexivity) ltac:(reflexivity)).
  intros r t _ _ Hle. exact Hle.
Defined.

(** *** Renderings checked on known values *)

Example toISOString_readme :
  Date.toISOString 1759517123123 = "2025-10-03T18:45:23.123Z".
Proof. reflexivity. Qed.

Example toISOString_epoch :
  Date.toISOString 0 = "1970-01-01T00:00:00.000Z".
Proof. reflexivity. Qed.

Example toISOString_leap_day :
  Date.toISOString 951782400000 = "2000-02-29T00:00:00.000Z".
Proof. reflexivity. Qed.

Example toISOString_before_epoch :
  Date.toISOString (-1) = "1969-12-31T23:59:59.999Z".
Proof. reflexivity. Qed.

Example toISOString_largest :
  Date.toISOString Date.max_time = "+275760-09-13T00:00:00.000Z".
Proof. reflexivity. Qed.

Example to_double_samples :
  JS.to_double 9007199254740993 = 9007199254740992
  /\ JS.to_double 9007199254740995 = 9007199254740996
  /\ JS.to_double 9223372036854775807 = 9223372036854775808
  /\ JS.to_double (-9223372036854775807) = -9223372036854775808
  /\ JS.to_double 9007199254740991 = 9007199254740991.
Proof. repeat split; reflexivity. Qed.

Example printed_integer_samples :
  JS.printed_integer 9223372036854775808 = 9223372036854776000
  /\ JS.printed_integer 18446744073709551616 = 18446744073709552000
  /\ JS.printed_integer 1152921504606846976 = 1152921504606847000
  /\ JS.printed_integer 9223372036854774784 = 9223372036854775000
  /\ JS.printed_integer 9007199254740994 = 9007199254740994
  /\ JS.printed_integer (-25) = -25.
Proof. repeat split; by vm_compute. Qed.

(** The largest [bigint], as a limit, is the double 2^63: it is sent as
    9223372036854776000, which is no [bigint]. *)
Example recent_limit_rounded_beyond_bigint :
  get_recent (Some "9223372036854775807") 13 twelve_events
  = (json 500 (Error "Failed to fetch events"),
     received (SelectRecent (JS.Num 9223372036854775808)) twelve_events).
Proof. by vm_compute. Qed.

Example read_samples :
  ISO8601.read "1970-01-01T00:00:00.000Z" = Some 0
  /\ ISO8601.read "2025-10-03T18:45:23.123Z" = Some 1759517123123
  /\ ISO8601.read "2024-02-29T12:00:00.000Z" = Some 1709208000000
  /\ ISO8601.read "2025-02-29T12:00:00.000Z" = None
  /\ ISO8601.read "2025-10-03T18:45:23Z" = None
  /\ ISO8601.read "2025-10-03 18:45:23.123" = None
  /\ ISO8601.read "" = None.
Proof. repeat split; by vm_compute. Qed.

Example parseInt_samples :
  JS.parseInt (Some "25") = JS.Num 25
  /\ JS.parseInt (Some "  -12abc") = JS.Num (-12)
  /\ JS.parseInt (Some "0x1f") = JS.Num 31
  /\ JS.parseInt (Some "abc") = JS.NaN
  /\ JS.parseInt (Some "") = JS.NaN
  /\ JS.parseInt None = JS.NaN.
Proof. repeat split; reflexivity. Qed.

Example export_two_records_one_undo :
  body (fst (get_export 1759517140000000
               (snd (run 7 two_records_one_undo empty_store))))
  = Csv "door_events_2025-10-03T18-45-40.csv"
        "id,door_number,event_type,timestamp_utc
2,6,A_IN,2025-10-03T18:45:25.456Z".
Proof. vm_compute. reflexivity. Qed.

(** ** Further properties of the handlers *)

(** *** Creating an event *)

Lemma event_types_member t :
  existsb (String.eqb t) PG.event_types = true <-> t ∈ PG.event_types.
Proof.
  rewrite existsb_exists. split.
  - intros (x & Hin & Hx). apply String.eqb_eq in Hx. subst x.
    by apply list_elem_of_In.
  - intros Hin. exists t. split; [by apply list_elem_of_In|].
    apply String.eqb_refl.
Qed.

(** The row of a successful insert passed the constraints of the table. *)
Lemma insert_event_row door type now st r st' :
  insert_event door type now st = (Some r, st') ->
  exists new,
    rows r = [new]
    /\ events st' = events st ++ [new]
    /\ id new = events_id_seq st + 1
    /\ stored_row_ok new
    /\ timestamp_utc new = now
    /\ deleted_at new = None
    /\ events_id_seq st' = events_id_seq st + 1
    /\ events_id_seq st + 1 <= PG.int4_max
    /\ statements st' = statements st.
Proof.
  unfold insert_event. intros Hins.
  destruct (match PG.prepareValue door with
            | Some t => Some <$> PG.int4in t
            | None => Some None
            end) as [d|]; [|discriminate].
  destruct (PG.int4_max <? events_id_seq st + 1) eqn:Hmax; [discriminate|].
  destruct d as [d|]; [|discriminate].
  destruct (PG.prepareValue type) as [t|]; [|discriminate].
  destruct ((1 <=? d) && (d <=? 26) && existsb (String.eqb t) PG.event_types)
    eqn:Hcheck; [|discriminate].
  apply andb_prop in Hcheck as [Hrange Htype].
  apply event_types_member in Htype.
  apply andb_prop in Hrange as [Hlo Hhi].
  injection Hins as <- <-.
  exists {| id := events_id_seq st + 1; door_number := d; event_type := t;
            timestamp_utc := now; created_at := Some now;
            deleted_at := None |}.
  unfold stored_row_ok. simpl.
  repeat split; try reflexivity; try exact Htype; lia.
Qed.

Section Creating.

Context {engine : Engine}.

(** What a 201 answer of [POST /api/events] says about the store. *)
Lemma post_events_created b now st :
  status (fst (post_events b now st)) = 201 ->
  exists new,
    fst (post_events b now st) = json 201 (Event (event_of_row new))
    /\ events (snd (post_events b now st)) = events st ++ [new]
    /\ id new = events_id_seq st + 1
    /\ stored_row_ok new
    /\ timestamp_utc new = now
    /\ deleted_at new = None
    /\ events_id_seq (snd (post_events b now st)) = events_id_seq st + 1
    /\ events_id_seq st + 1 <= PG.int4_max.
Proof.
  unfold post_events.
  destruct (negb (JS.truthy _) || negb (JS.truthy _)); [discriminate|].
  destruct (JS.lt _ 1 || JS.gt _ 26); [discriminate|].
  destruct (negb (JS.includes _ _)); [discriminate|].
  unfold pool_query.
  destruct (insert_event _ _ now (received _ st)) as [[r|] st'] eqn:Hins;
    [|discriminate].
  apply insert_event_row in Hins
    as (new & Hrows & Hev & Hid & Hok & Hts & Hact & Hseq & Hmax & _).
  rewrite Hrows. simpl. intros _. exists new.
  split; [reflexivity|]. split; [exact Hev|]. split; [exact Hid|].
  split; [exact Hok|]. split; [exact Hts|]. split; [exact Hact|].
  split; [exact Hseq | exact Hmax].
Qed.

(** X1: a body with a door number from 1 to 26 and one of the four event
    types is answered 201 while the id sequence is not exhausted: the event
    returned has the next id of the sequence and the server time, and its
    row, active, is appended to the table, the other rows untouched. *)
Theorem record_valid_creates (b : gmap string JS.value) (n : Z) (t : string)
    (now : Z) (st : store) :
  b !! "door_number" = Some (JS.JNum n) ->
  b !! "event_type" = Some (JS.JStr t) ->
  1 <= n <= 26 -> t ∈ PG.event_types ->
  events_id_seq st + 1 <= PG.int4_max ->
  let new := {| id := events_id_seq st + 1; door_number := n;
                event_type := t; timestamp_utc := now;
                created_at := Some now; deleted_at := None |} in
  fst (post_events b now st) = json 201 (Event (event_of_row new))
  /\ events (snd (post_events b now st)) = events st ++ [new]
  /\ events_id_seq (snd (post_events b now st)) = events_id_seq st + 1.
Proof.
  intros Hdoor Htype Hn Ht Hseq new. unfold post_events.
  rewrite Hdoor, Htype.
  change (default JS.JUndefined (Some (JS.JNum n))) with (JS.JNum n).
  change (default JS.JUndefined (Some (JS.JStr t))) with (JS.JStr t).
  assert (Htruthy : negb (JS.truthy (JS.JNum n)) || negb (JS.truthy (JS.JStr t))
                    = false).
  { simpl. replace (n =? 0) with false by lia. simpl.
    repeat (apply elem_of_cons in Ht as [->|Ht]; [reflexivity|]).
    by apply elem_of_nil in Ht. }
  rewrite Htruthy.
  assert (Hrange : JS.lt (JS.JNum n) 1 || JS.gt (JS.JNum n) 26 = false).
  { unfold JS.lt, JS.gt. simpl. lia. }
  rewrite Hrange.
  assert (Hinc : JS.includes ["A_IN"; "A_OUT"; "B_IN"; "B_OUT"] (JS.JStr t)
                 = true).
  { apply includes_true. by exists t. }
  rewrite Hinc. cbn [negb].
  unfold pool_query, insert_event. cbn [PG.prepareValue].
  rewrite int4in_pretty by (unfold PG.in_int4, PG.int4_min, PG.int4_max; lia).
  cbn [fmap option_fmap option_map received events_id_seq].
  replace (PG.int4_max <? events_id_seq st + 1) with false by lia.
  replace ((1 <=? n) && (n <=? 26)) with true by lia.
  rewrite (proj2 (event_types_member t) Ht). simpl. done.
Qed.

(** X2: when the id sequence is exhausted, a body that passes validation
    is answered 500 and neither the rows nor the sequence change. *)
Theorem record_sequence_exhausted (b : gmap string JS.value) (n : Z)
    (t : string) (now : Z) (st : store) :
  b !! "door_number" = Some (JS.JNum n) ->
  b !! "event_type" = Some (JS.JStr t) ->
  1 <= n <= 26 -> t ∈ PG.event_types ->
  PG.int4_max <= events_id_seq st ->
  fst (post_events b now st) = json 500 (Error "Failed to create event")
  /\ events (snd (post_events b now st)) = events st
  /\ events_id_seq (snd (post_events b now st)) = events_id_seq st.
Proof.
  intros Hdoor Htype Hn Ht Hseq.
  destruct (post_events b now st) as [resp st'] eqn:Hpost. simpl.
  unfold post_events in Hpost. rewrite Hdoor, Htype in Hpost.
  change (default JS.JUndefined (Some (JS.JNum n))) with (JS.JNum n) in Hpost.
  change (default JS.JUndefined (Some (JS.JStr t))) with (JS.JStr t) in Hpost.
  assert (Htruthy : negb (JS.truthy (JS.JNum n)) || negb (JS.truthy (JS.JStr t))
                    = false).
  { simpl. replace (n =? 0) with false by lia. simpl.
    repeat (apply elem_of_cons in Ht as [->|Ht]; [reflexivity|]).
    by apply elem_of_nil in Ht. }
  rewrite Htruthy in Hpost.
  assert (Hrange : JS.lt (JS.JNum n) 1 || JS.gt (JS.JNum n) 26 = false).
  { unfold JS.lt, JS.gt. simpl. lia. }
  rewrite Hrange in Hpost.
  assert (Hinc : JS.includes ["A_IN"; "A_OUT"; "B_IN"; "B_OUT"] (JS.JStr t)
                 = true).
  { apply includes_true. by exists t. }
  rewrite Hinc in Hpost. cbn [negb] in Hpost.
  unfold pool_query, insert_event in Hpost. cbn [PG.prepareValue] in Hpost.
  rewrite int4in_pretty in Hpost
    by (unfold PG.in_int4, PG.int4_min, PG.int4_max; lia).
  cbn [fmap option_fmap option_map received events_id_seq] in Hpost.
  replace (PG.int4_max <? events_id_seq st + 1) with true in Hpost by lia.
  by injection Hpost as <- <-.
Qed.

End Creating.

Lemma record_valid_creates_witness :
  fst (post_events (button 5 "A_IN") 36000000000 empty_store)
  = json 201 (Event {| event_id := 1; event_door_number := 5;
                       event_event_type := "A_IN";
                       event_timestamp_utc := Some 36000000 |}).
Proof.
  apply (record_valid_creates (button 5 "A_IN") 5 "A_IN" 36000000000
           empty_store);
    [reflexivity | reflexivity | lia | left | by vm_compute].
Defined.

Lemma record_sequence_exhausted_witness :
  let full := {| events := []; events_id_seq := 2147483647;
                 statements := [] |} in
  fst (post_events (button 5 "A_IN") 36000000000 full)
  = json 500 (Error "Failed to create event").
Proof.
  intros full.
  apply (record_sequence_exhausted (button 5 "A_IN") 5 "A_IN" 36000000000
           full);
    [reflexivity | reflexivity | lia | left | by vm_compute].
Defined.

(** *** Ids and stored rows over the life of the server *)

Lemma changes_seq_mono now st st' :
  changes now st st' -> events_id_seq st <= events_id_seq st'.
Proof. destruct 1; lia. Qed.

Lemma mark_deleted_ok now r : stored_row_ok r -> stored_row_ok (mark_deleted now r).
Proof. by unfold stored_row_ok. Qed.

Lemma Forall_filter_keep {A} (P Q : A -> Prop) `{forall x, Decision (Q x)}
    (l : list A) :
  Forall P l -> Forall P (filter Q l).
Proof.
  rewrite !Forall_forall. intros Hall x Hx.
  apply list_elem_of_filter in Hx as [_ Hx]. by apply Hall.
Qed.

Section Invariants.

Context {engine : Engine}.

(** Only [POST /api/events] answers 201. *)
Lemma handle_201 days req now st :
  status (fst (handle days req now st)) = 201 -> exists b, req = PostEvents b.
Proof.
  destruct req as [b|id_text|limit|door type| |]; simpl.
  - intros _. by exists b.
  - unfold delete_event.
    destruct (pool_query _ now st) as [[r|] st']; [|discriminate].
    destruct (Nat.eqb _ 0); discriminate.
  - unfold get_recent.
    destruct (pool_query _ now st) as [[r|] st']; discriminate.
  - unfold get_last. destruct (missing _ || missing _); [discriminate|].
    destruct (pool_query _ now st) as [[r|] st']; [|discriminate].
    destruct (rows r); discriminate.
  - unfold get_export.
    destruct (pool_query _ now st) as [[r|] st']; [|discriminate].
    destruct (mapM _ _); [destruct (Date.toISOString <$> _)|]; discriminate.
  - unfold post_cleanup.
    destruct (pool_query _ now st) as [[r|] st']; discriminate.
Qed.

(** The rows after [POST /api/events]: as before, or one more that meets
    the constraints of the table. *)
Lemma post_events_rows b now st :
  events (snd (post_events b now st)) = events st
  \/ exists new,
       events (snd (post_events b now st)) = events st ++ [new]
       /\ stored_row_ok new.
Proof.
  unfold post_events.
  destruct (negb (JS.truthy _) || negb (JS.truthy _)); [by left|].
  destruct (JS.lt _ 1 || JS.gt _ 26); [by left|].
  destruct (negb (JS.includes _ _)); [by left|].
  unfold pool_query.
  destruct (insert_event _ _ now (received _ st)) as [[r|] st'] eqn:Hins.
  - apply insert_event_row in Hins as (new & Hrows & Hev & _ & Hok & _).
    rewrite Hrows. simpl. right. by exists new.
  - apply insert_event_failure in Hins as (Hev & _). simpl. by left.
Qed.

(** X3: every input keeps the rows within the constraints of the table:
    [door_number] from 1 to 26, [event_type] one of the four, and
    [created_at] equal to [timestamp_utc]. *)
Theorem stored_rows_stay_valid (days : Z) (i : input) (now : Z) (st : store) :
  Forall stored_row_ok (events st) ->
  Forall stored_row_ok (events (step days i now st)).
Proof.
  intros Hok. destruct i as [req|].
  - destruct req as [b|id_text|limit|door type| |].
    + simpl. destruct (post_events_rows b now st) as [->|(new & -> & Hnew)];
        [exact Hok|].
      apply Forall_app. split; [exact Hok | by constructor].
    + simpl. unfold delete_event, pool_query, soft_delete.
      destruct (PG.int4in _) as [j|]; simpl; [|exact Hok].
      assert (Hmap : Forall stored_row_ok
                ((fun r => if targets j r then mark_deleted now r else r)
                   <$> events st)).
      { apply Forall_fmap. eapply Forall_impl; [exact Hok|].
        intros r Hr. simpl. destruct (targets j r); [|exact Hr].
        by apply mark_deleted_ok. }
      by destruct (Nat.eqb _ 0).
    + simpl. unfold get_recent, pool_query, select_recent.
      destruct (JS.number_or _ _) as [|n]; [exact Hok|].
      by destruct (_ && _).
    + simpl. unfold get_last. destruct (missing _ || missing _); [exact Hok|].
      unfold pool_query, select_last. destruct (PG.int4in _); [|exact Hok].
      simpl. by destruct (sql_limit 1 _).
    + simpl. unfold get_export, pool_query, select_all_active. simpl.
      destruct (mapM _ _); [destruct (Date.toISOString <$> _)|]; exact Hok.
    + simpl. unfold post_cleanup, pool_query, delete_older_than.
      destruct (_ && _); simpl; [by apply Forall_filter_keep | exact Hok].
  - simpl. unfold scheduled_cleanup, pool_query, delete_older_than.
    destruct (_ && _); simpl; [by apply Forall_filter_keep | exact Hok].
Qed.

End Invariants.

Lemma tied_store_rows_ok : Forall stored_row_ok (events tied_store).
Proof.
  change (events tied_store) with
    [ {| id := 1; door_number := 5; event_type := "A_IN";
         timestamp_utc := 36000000000; created_at := Some 36000000000;
         deleted_at := None |};
      {| id := 2; door_number := 5; event_type := "A_IN";
         timestamp_utc := 36000000000; created_at := Some 36000000000;
         deleted_at := None |} ].
  repeat constructor; simpl; lia.
Qed.

Lemma stored_rows_stay_valid_witness :
  Forall stored_row_ok
    (events (step 7 (Http (PostEvents (button 9 "B_IN"))) 36000000700
               tied_store)).
Proof.
  apply (stored_rows_stay_valid 7 (Http (PostEvents (button 9 "B_IN")))
           36000000700 tied_store tied_store_rows_ok).
Defined.

Section FreshIds.

Context {engine : Engine}.

Lemma created_ids_cons r l :
  created_ids (r :: l)
  = match body r with
    | Event e => if decide (status r = 201) then event_id e :: created_ids l
                 else created_ids l
    | _ => created_ids l
    end.
Proof.
  unfold created_ids. simpl. destruct (body r); try reflexivity.
  by destruct (decide (status r = 201)).
Qed.

(** The ids created over a run lie above the sequence at the start, up to
    the sequence at the end, in increasing order. *)
Lemma created_ids_between days reqs st :
  Forall (fun i => events_id_seq st < i
                   <= events_id_seq (snd (run days reqs st)))
         (created_ids (fst (run days reqs st)))
  /\ StronglySorted Z.lt (created_ids (fst (run days reqs st)))
  /\ events_id_seq st <= events_id_seq (snd (run days reqs st)).
Proof.
  revert st. induction reqs as [|[req now] reqs IH]; intros st.
  - simpl. split; [constructor|]. split; [constructor | lia].
  - rewrite run_cons. cbn [fst snd].
    set (resp := fst (handle days req now st)).
    set (st1 := snd (handle days req now st)).
    destruct (IH st1) as (Hall & Hsorted & Hmono).
    pose proof (changes_seq_mono now st st1
                  (step_changes days (Http req) now st)) as Hstep.
    assert (Htail : Forall (fun i => events_id_seq st < i
                       <= events_id_seq (snd (run days reqs st1)))
                      (created_ids (fst (run days reqs st1)))).
    { eapply Forall_impl; [exact Hall|]. simpl. intros i Hi. lia. }
    rewrite created_ids_cons.
    destruct (body resp) as [msg|e|l|n|f c|] eqn:Hbody;
      try (split; [exact Htail|]; split; [exact Hsorted | lia]).
    destruct (decide (status resp = 201)) as [H201|_];
      [|split; [exact Htail|]; split; [exact Hsorted | lia]].
    destruct (handle_201 days req now st H201) as [b ->].
    destruct (post_events_created b now st H201)
      as (new & Hresp & _ & Hid & _ & _ & _ & Hseq & _).
    assert (He : event_id e = events_id_seq st + 1).
    { unfold resp in Hbody. simpl in Hbody. rewrite Hresp in Hbody.
      simpl in Hbody. injection Hbody as <-. exact Hid. }
    assert (Hs1 : events_id_seq st1 = events_id_seq st + 1) by exact Hseq.
    split; [|split; [|lia]].
    + constructor; [lia | exact Htail].
    + constructor; [exact Hsorted|].
      eapply Forall_impl; [exact Hall|]. simpl. intros i Hi. lia.
Qed.

(** X4: over any run of requests, the ids of the events created (the 201
    answers) are strictly increasing, hence distinct, and each is above the
    id sequence as it stood at the start; on a consistent table none of
    them is the id of a row that was already there. *)
Theorem created_ids_fresh (days : Z) (reqs : list (request * Z)) (st : store) :
  consistent st ->
  let ids := created_ids (fst (run days reqs st)) in
  StronglySorted Z.lt ids
  /\ Forall (fun i => events_id_seq st < i) ids
  /\ (forall r, r ∈ events st -> id r ∉ ids).
Proof.
  intros (_ & Hids & _) ids.
  destruct (created_ids_between days reqs st) as (Hall & Hsorted & _).
  fold ids in Hall, Hsorted.
  split; [exact Hsorted|].
  assert (Habove : Forall (fun i => events_id_seq st < i) ids).
  { eapply Forall_impl; [exact Hall|]. simpl. intros i Hi. lia. }
  split; [exact Habove|].
  intros r Hr Hin. rewrite Forall_forall in Hids.
  rewrite Forall_forall in Habove.
  specialize (Hids r Hr). specialize (Habove _ Hin). simpl in Habove. lia.
Qed.

End FreshIds.

Lemma created_ids_fresh_witness :
  created_ids (fst (run 7 two_records_one_undo tied_store)) = [3; 4]
  /\ StronglySorted Z.lt
       (created_ids (fst (run 7 two_records_one_undo tied_store))).
Proof.
  split; [by vm_compute|].
  apply (created_ids_fresh 7 two_records_one_undo tied_store
           tied_store_consistent).
Defined.

(** *** Reading routes and malformed parameters *)

(** A text without a digit is no integer for PostgreSQL. *)
Lemma read_decimal_no_digit s :
  no_digit s = true -> PG.read_decimal s None = (None, s).
Proof.
  destruct s as [|c s]; [reflexivity|]. simpl.
  intros Hn. apply andb_prop in Hn as [Hc _].
  by destruct (PG.is_digit c).
Qed.

Lemma no_digit_skip_space s :
  no_digit s = true -> no_digit (PG.skip_space s) = true.
Proof.
  induction s as [|c s IH]; [done|]. intros Hn. simpl.
  destruct (PG.is_space c); [|exact Hn].
  simpl in Hn. apply andb_prop in Hn as [_ Hn]. by apply IH.
Qed.

Lemma int4in_no_digit s : no_digit s = true -> PG.int4in s = None.
Proof.
  intros Hn. apply no_digit_skip_space in Hn. unfold PG.int4in.
  destruct (PG.skip_space s) as [|c r]; [reflexivity|].
  simpl in Hn. apply andb_prop in Hn as [Hc Hr].
  apply read_decimal_no_digit in Hr.
  destruct c as [[] [] [] [] [] [] [] []]; try discriminate Hc;
    cbv iota beta; try (by rewrite Hr); reflexivity.
Qed.

Ltac one_select :=
  right; eexists; split; [|reflexivity]; reflexivity.

Section Reading.

Context {engine : Engine}.

(** X5: the recent list, the last-event lookup and the export never change
    the rows or the id sequence, whatever their parameters; each sends at
    most one statement, and that statement is a [SELECT]. *)
Theorem read_routes_only_select (days : Z) (req : request) (now : Z)
    (st : store) :
  is_read req = true ->
  let st' := snd (handle days req now st) in
  events st' = events st
  /\ events_id_seq st' = events_id_seq st
  /\ (statements st' = statements st
      \/ exists q, is_select q = true /\ statements st' = q :: statements st).
Proof.
  intros Hread.
  destruct req as [b|id_text|limit|door type| |]; try discriminate Hread;
    simpl.
  - unfold get_recent, pool_query, select_recent.
    destruct (JS.number_or _ _) as [|n] eqn:Hn; simpl.
    + repeat split. one_select.
    + destruct (_ && _); simpl; repeat split; one_select.
  - unfold get_last. destruct (missing _ || missing _); simpl.
    + repeat split. by left.
    + unfold pool_query, select_last. destruct (PG.int4in _); simpl.
      * destruct (sql_limit 1 _); simpl; repeat split; one_select.
      * repeat split. one_select.
  - unfold get_export, pool_query, select_all_active. simpl.
    destruct (mapM _ _); [destruct (Date.toISOString <$> _)|]; simpl;
      repeat split; one_select.
Qed.

(** X6: the last-event lookup answers 400 without sending a statement when
    a parameter is absent or empty.  When both are given and the door
    number has no decimal digit, which no version of PostgreSQL reads as an
    integer, the answer is 500.  The rows stay as they were in both
    cases. *)
Theorem last_rejects_bad_parameters (door type : option string) (now : Z)
    (st : store) :
  (door = None \/ door = Some "" \/ type = None \/ type = Some "" ->
   get_last door type now st
   = (json 400 (Error "door_number and event_type are required"), st))
  /\ (forall d t, door = Some d -> type = Some t -> d <> "" -> t <> "" ->
      no_digit d = true ->
      fst (get_last door type now st)
      = json 500 (Error "Failed to fetch last event")
      /\ events (snd (get_last door type now st)) = events st).
Proof.
  split.
  - intros Hbad. unfold get_last.
    assert (Hmiss : missing door || missing type = true).
    { destruct Hbad as [-> | [-> | [-> | ->]]]; simpl; try reflexivity;
        apply orb_true_r. }
    by rewrite Hmiss.
  - intros d t -> -> Hd Ht Hnone. unfold get_last.
    assert (Hmiss : missing (Some d) || missing (Some t) = false).
    { simpl. destruct d; [done|]. by destruct t. }
    rewrite Hmiss. unfold pool_query, select_last. simpl.
    by rewrite (int4in_no_digit d Hnone).
Qed.

(** X7: a soft delete whose path id is the decimal text of a 32-bit
    integer is answered 204 or 404, never 500.  When the id has no decimal
    digit, which no version of PostgreSQL reads as an integer, the answer
    is 500 and neither the rows nor the id sequence change. *)
Theorem undo_rejects_bad_id (id_text : string) (now : Z) (st : store) :
  (forall i, PG.int4in id_text = Some i ->
     status (fst (delete_event id_text now st)) = 204
     \/ status (fst (delete_event id_text now st)) = 404)
  /\ (no_digit id_text = true ->
      fst (delete_event id_text now st)
      = json 500 (Error "Failed to delete event")
      /\ events (snd (delete_event id_text now st)) = events st
      /\ events_id_seq (snd (delete_event id_text now st))
         = events_id_seq st).
Proof.
  split.
  - intros i Hi. rewrite (delete_event_with id_text i now st Hi).
    destruct (decide _); simpl; [by right | by left].
  - intros Hnone. unfold delete_event, pool_query, soft_delete.
    by rewrite (int4in_no_digit id_text Hnone).
Qed.

End Reading.

Lemma last_rejects_bad_parameters_witness :
  get_last None (Some "A_IN") 36000000700 tied_store
  = (json 400 (Error "door_number and event_type are required"), tied_store)
  /\ fst (get_last (Some "five") (Some "A_IN") 36000000700 tied_store)
     = json 500 (Error "Failed to fetch last event").
Proof.
  destruct (last_rejects_bad_parameters None (Some "A_IN") 36000000700
              tied_store) as [Hmissing _].
  destruct (last_rejects_bad_parameters (Some "five") (Some "A_IN")
              36000000700 tied_store) as [_ Hbad].
  split.
  - apply Hmissing. by left.
  - by apply (Hbad "five" "A_IN").
Defined.

Lemma undo_rejects_bad_id_witness :
  (status (fst (delete_event "2" 36000000700 tied_store)) = 204
   \/ status (fst (delete_event "2" 36000000700 tied_store)) = 404)
  /\ fst (delete_event "last" 36000000700 tied_store)
     = json 500 (Error "Failed to delete event").
Proof.
  split.
  - by apply (proj1 (undo_rejects_bad_id "2" 36000000700 tied_store) 2).
  - by apply (proj2 (undo_rejects_bad_id "last" 36000000700 tied_store)).
Defined.

Lemma read_routes_only_select_witness :
  events (snd (handle 7 (GetRecent (Some "3")) 36000000700 tied_store))
  = events tied_store.
Proof.
  apply (read_routes_only_select 7 (GetRecent (Some "3")) 36000000700
           tied_store eq_refl).
Defined.

(** *** Undoing the last event of a button *)

(** The decimal text of any integer, read as a 32-bit integer. *)
Lemma int4in_pretty_any (n : Z) :
  PG.int4in (pretty n) = if PG.in_int4 n then Some n else None.
Proof.
  destruct n as [|p|p].
  - reflexivity.
  - apply int4in_pretty_pos.
  - change (pretty (Z.neg p)) with (String "-" (pretty_N_go (N.pos p) "")).
    unfold PG.int4in.
    change (PG.skip_space (String "-" (pretty_N_go (N.pos p) "")))
      with (String "-" (pretty_N_go (N.pos p) "")).
    cbv iota beta.
    rewrite (read_decimal_pretty_go (N.pos p) "" ltac:(lia)). reflexivity.
Qed.

Lemma Forall2_fmap_each {A} (R : A -> A -> Prop) (f : A -> A) (l : list A) :
  (forall x, x ∈ l -> R x (f x)) -> Forall2 R l (f <$> l).
Proof.
  induction l as [|a l IH]; intros Hall; [constructor|].
  rewrite fmap_cons. constructor; [apply Hall; left|].
  apply IH. intros x Hx. apply Hall. by right.
Qed.

Lemma Forall2_diag {A} (R : A -> A -> Prop) (l : list A) :
  (forall x, R x x) -> Forall2 R l l.
Proof. intros Hr. induction l; constructor; auto. Qed.

Section UndoLast.

Context {engine : Engine}.

(** The soft delete of a path that is no integer. *)
Lemma delete_event_unparsed id_text now st :
  PG.int4in id_text = None ->
  events (snd (delete_event id_text now st)) = events st.
Proof.
  intros Hi. unfold delete_event, pool_query, soft_delete. by rewrite Hi.
Qed.

(** X8: [undo_last] for a button leaves every row of the other buttons,
    and every row already deleted, exactly as it was and where it was: a
    row that differs afterwards is an active row of that door and event
    type, now marked deleted. *)
Theorem undo_last_touches_one_button (door : string) (d : Z) (t : string)
    (now : Z) (st : store) :
  NoDup (id <$> events st) ->
  PG.int4in door = Some d ->
  Forall2 (fun r r' =>
             r' = r
             \/ (door_number r = d /\ event_type r = t
                 /\ deleted_at r = None /\ r' = mark_deleted now r))
          (events st)
          (events (snd (undo_last (Some door) (Some t) now st))).
Proof.
  intros Hnd Hd. unfold undo_last.
  destruct (decide (t = "")) as [->|Ht].
  { unfold get_last. simpl. rewrite orb_true_r. simpl.
    apply Forall2_diag. by left. }
  rewrite (get_last_with door d t now st Hd Ht).
  destruct (order_by_timestamp_desc _) as [|r0 rest] eqn:Hsorted.
  { simpl. apply Forall2_diag. by left. }
  apply order_by_head in Hsorted as [Hin _].
  apply list_elem_of_filter in Hin as [Hr0 Hr0in].
  apply for_button_true in Hr0 as (Hdoor & Htype & Hact).
  cbn [json event_of_row event_id].
  destruct (PG.int4in (pretty (id r0))) as [i|] eqn:Hparse.
  - rewrite (delete_event_with _ i now _ Hparse).
    rewrite int4in_pretty_any in Hparse.
    destruct (PG.in_int4 (id r0)); [|discriminate]. injection Hparse as <-.
    simpl. apply Forall2_fmap_each. intros r Hr.
    destruct (targets (id r0) r) eqn:Htar; [|by left].
    apply targets_true in Htar as [Hid _].
    assert (r = r0) as -> by by apply (NoDup_fmap_eq id (events st)).
    right. done.
  - rewrite (delete_event_unparsed _ now _ Hparse). simpl.
    apply Forall2_diag. by left.
Qed.

(** X9: with no active event for the button there is nothing to undo:
    [undo_last] answers 404 and no row changes. *)
Theorem undo_last_nothing_to_undo (door : string) (d : Z) (t : string)
    (now : Z) (st : store) :
  PG.int4in door = Some d -> t <> "" ->
  (forall r, r ∈ events st -> door_number r = d -> event_type r = t ->
             deleted_at r <> None) ->
  fst (undo_last (Some door) (Some t) now st)
  = json 404 (Error "No events found for this button")
  /\ events (snd (undo_last (Some door) (Some t) now st)) = events st.
Proof.
  intros Hd Ht Hnone. unfold undo_last.
  rewrite (get_last_with door d t now st Hd Ht).
  assert (Hnil : filter (fun r => for_button d t r = true) (events st) = []).
  { apply filter_none. apply Forall_forall. intros r Hr Hb.
    apply for_button_true in Hb as (Hdoor & Htype & Hact).
    by apply (Hnone r Hr). }
  rewrite Hnil, (proj2 (order_by_nil [])) by reflexivity. by simpl.
Qed.

End UndoLast.

Lemma undo_last_touches_one_button_witness :
  Forall2 (fun r r' =>
             r' = r
             \/ (door_number r = 6 /\ event_type r = "A_IN"
                 /\ deleted_at r = None /\ r' = mark_deleted 36009000000 r))
          (events mixed_store)
          (events (snd (undo_last (Some "6") (Some "A_IN") 36009000000
                          mixed_store))).
Proof.
  apply (undo_last_touches_one_button "6" 6 "A_IN" 36009000000 mixed_store).
  - refine (bool_decide_unpack _ _). by vm_compute.
  - reflexivity.
Defined.

Lemma undo_last_nothing_to_undo_witness :
  fst (undo_last (Some "9") (Some "A_IN") 36000000500 tied_store)
  = json 404 (Error "No events found for this button").
Proof.
  apply (undo_last_nothing_to_undo "9" 9 "A_IN" 36000000500 tied_store);
    [reflexivity | discriminate |].
  intros r Hr Hdoor. exfalso.
  apply elem_of_cons in Hr as [->|Hr]; [discriminate Hdoor|].
  apply elem_of_cons in Hr as [->|Hr]; [discriminate Hdoor|].
  by apply elem_of_nil in Hr.
Defined.

(** *** Recording, then undoing or looking up *)

Lemma no_target_above i (l : list row) :
  Forall (fun r => id r < i) l ->
  filter (fun r => targets i r = true) l = [].
Proof.
  intros Hall. apply filter_none. eapply Forall_impl; [exact Hall|].
  simpl. intros r Hr Ht. apply targets_true in Ht as [Hid _]. lia.
Qed.

Section RecordThen.

Context {engine : Engine}.

(** X10: undoing an event by the id that its 201 answer carried succeeds
    and brings the active events back to what they were before it was
    recorded; the row stays in the table, marked deleted. *)
Theorem record_then_undo (b : gmap string JS.value) (now now2 : Z)
    (st : store) (e : event) :
  consistent st ->
  fst (post_events b now st) = json 201 (Event e) ->
  let st1 := snd (post_events b now st) in
  let st2 := snd (delete_event (pretty (event_id e)) now2 st1) in
  fst (delete_event (pretty (event_id e)) now2 st1) = json 204 NoContent
  /\ active_rows st2 = active_rows st
  /\ exists r, events st2 = events st ++ [r]
               /\ id r = event_id e /\ deleted_at r = Some now2.
Proof.
  intros (_ & Hids & Hseq) Hresp st1 st2.
  destruct (post_events_created b now st) as
    (new & Hresp' & Hev & Hid & _ & _ & Hact & _ & Hmax).
  { by rewrite Hresp. }
  rewrite Hresp in Hresp'. injection Hresp' as ->.
  fold st1 in Hev. cbn [event_of_row event_id] in *.
  assert (Hparse : PG.int4in (pretty (id new)) = Some (id new)).
  { apply int4in_pretty. unfold PG.in_int4, PG.int4_min.
    unfold PG.int4_max in *. lia. }
  assert (Hold : Forall (fun r => id r < id new) (events st)).
  { eapply Forall_impl; [exact Hids|]. simpl. intros r Hr. lia. }
  assert (Hnew : targets (id new) new = true).
  { by apply targets_true. }
  assert (Hfilter : filter (fun r => targets (id new) r = true) (events st1)
                    = [new]).
  { rewrite Hev, filter_app, (no_target_above _ _ Hold).
    by rewrite (filter_all _ [new]) by by constructor. }
  assert (Hmap : (fun r => if targets (id new) r then mark_deleted now2 r
                           else r) <$> events st1
                 = events st ++ [mark_deleted now2 new]).
  { rewrite Hev, fmap_app, (update_none _ _ _ (no_target_above _ _ Hold)).
    simpl. by rewrite Hnew. }
  unfold st2. rewrite (delete_event_with _ (id new) now2 st1 Hparse).
  cbn [fst snd with_events events]. rewrite Hfilter, Hmap.
  split; [by rewrite decide_False|]. split.
  - unfold active_rows. cbn [events with_events].
    rewrite filter_app, (filter_none _ [mark_deleted now2 new]).
    + by rewrite app_nil_r.
    + constructor; [simpl; discriminate | constructor].
  - eexists. split; [reflexivity|]. by simpl.
Qed.

(** X11: an event recorded later than every active event of its button is
    the one that the last-event lookup for that button returns. *)
Theorem last_after_record (b : gmap string JS.value) (now now2 : Z)
    (st : store) (e : event) :
  fst (post_events b now st) = json 201 (Event e) ->
  (forall r, r ∈ events st ->
             door_number r = event_door_number e ->
             event_type r = event_event_type e ->
             deleted_at r = None -> timestamp_utc r < now) ->
  fst (get_last (Some (pretty (event_door_number e)))
                (Some (event_event_type e)) now2
                (snd (post_events b now st)))
  = json 200 (Event e).
Proof.
  intros Hresp Hlater.
  destruct (post_events_created b now st) as
    (new & Hresp' & Hev & _ & (Hdoor & Htype & _) & Hts & Hact & _).
  { by rewrite Hresp. }
  rewrite Hresp in Hresp'. injection Hresp' as ->.
  cbn [event_of_row event_door_number event_event_type] in *.
  assert (Hparse : PG.int4in (pretty (door_number new))
                   = Some (door_number new)).
  { apply int4in_pretty. unfold PG.in_int4, PG.int4_min, PG.int4_max. lia. }
  assert (Hne : event_type new <> "").
  { intros Heq. rewrite Heq in Htype.
    repeat (apply elem_of_cons in Htype as [Htype|Htype]; [discriminate|]).
    by apply elem_of_nil in Htype. }
  rewrite (get_last_with _ _ _ now2 _ Hparse Hne). cbn [fst]. rewrite Hev.
  set (L := filter _ (events st ++ [new])).
  assert (HnewL : new ∈ L).
  { apply list_elem_of_filter. split; [by apply for_button_true|].
    apply elem_of_app. right. left. }
  destruct (order_by_timestamp_desc L) as [|r0 rest] eqn:Hsorted.
  { apply (proj1 (order_by_nil L)) in Hsorted. rewrite Hsorted in HnewL.
    by apply elem_of_nil in HnewL. }
  apply order_by_head in Hsorted as [Hr0 Hmax].
  specialize (Hmax new HnewL).
  apply list_elem_of_filter in Hr0 as [Hb Hin].
  apply for_button_true in Hb as (Hd0 & Ht0 & Ha0).
  apply elem_of_app in Hin as [Hin|Hin].
  - specialize (Hlater r0 Hin Hd0 Ht0 Ha0). lia.
  - apply list_elem_of_singleton in Hin as ->. reflexivity.
Qed.

End RecordThen.

Lemma record_then_undo_witness :
  let st1 := snd (post_events (button 5 "A_IN") 36000000700 tied_store) in
  active_rows (snd (delete_event "3" 36000000900 st1))
  = active_rows tied_store.
Proof.
  intros st1.
  destruct (record_then_undo (button 5 "A_IN") 36000000700 36000000900
              tied_store
              {| event_id := 3; event_door_number := 5;
                 event_event_type := "A_IN";
                 event_timestamp_utc := Some 36000000 |}
              tied_store_consistent ltac:(reflexivity)) as (_ & Hactive & _).
  exact Hactive.
Defined.

Lemma last_after_record_witness :
  fst (get_last (Some "5") (Some "A_IN") 36000000900
         (snd (post_events (button 5 "A_IN") 36000000700 tied_store)))
  = json 200 (Event {| event_id := 3; event_door_number := 5;
                       event_event_type := "A_IN";
                       event_timestamp_utc := Some 36000000 |}).
Proof.
  apply (last_after_record (button 5 "A_IN") 36000000700 36000000900
           tied_store
           {| event_id := 3; event_door_number := 5;
              event_event_type := "A_IN";
              event_timestamp_utc := Some 36000000 |} ltac:(reflexivity)).
  intros r Hr _ _ _.
  apply elem_of_cons in Hr as [->|Hr]; [simpl; lia|].
  apply elem_of_cons in Hr as [->|Hr]; [simpl; lia|].
  by apply elem_of_nil in Hr.
Defined.

(** *** The scheduled cleanup and cleanups in a row *)

Lemma older_than_mono c1 c2 r :
  c1 <= c2 -> older_than c1 r = true -> older_than c2 r = true.
Proof.
  unfold older_than. destruct (created_at r); [|done]. lia.
Qed.

(** Removing up to [c1] and then up to [c2] is removing up to [c2]. *)
Lemma purge_twice c1 c2 (l : list row) :
  c1 <= c2 ->
  filter (fun r => older_than c2 r = false)
    (filter (fun r => older_than c1 r = false) l)
  = filter (fun r => older_than c2 r = false) l
  /\ (length (filter (fun r => older_than c1 r = true) l)
      + length (filter (fun r => older_than c2 r = true)
                  (filter (fun r => older_than c1 r = false) l)))%nat
     = length (filter (fun r => older_than c2 r = true) l).
Proof.
  intros Hle. induction l as [|r l [IHkeep IHcount]]; [done|].
  rewrite !filter_cons.
  destruct (older_than c1 r) eqn:H1.
  - pose proof (older_than_mono c1 c2 r Hle H1) as H2.
    rewrite (decide_False (P := true = false)) by discriminate.
    rewrite (decide_True (P := true = true)) by reflexivity.
    rewrite H2.
    rewrite (decide_False (P := true = false)) by discriminate.
    rewrite (decide_True (P := true = true)) by reflexivity.
    split; [exact IHkeep | simpl; lia].
  - rewrite (decide_True (P := false = false)) by reflexivity.
    rewrite (decide_False (P := false = true)) by discriminate.
    rewrite !filter_cons.
    destruct (older_than c2 r) eqn:H2.
    + rewrite (decide_False (P := true = false)) by discriminate.
      rewrite (decide_True (P := true = true)) by reflexivity.
      split; [exact IHkeep | simpl; lia].
    + rewrite (decide_True (P := false = false)) by reflexivity.
      rewrite (decide_False (P := false = true)) by discriminate.
      split; [by rewrite IHkeep | exact IHcount].
Qed.

Section Scheduled.

Context {engine : Engine}.

(** X12: the scheduled job leaves the store exactly as a request to
    [POST /api/cleanup] at the same time would; when PostgreSQL accepts the
    statement the rows kept are those not older than the retention, and
    otherwise no row changes. *)
Theorem scheduled_cleanup_like_endpoint (days now : Z) (st : store) :
  scheduled_cleanup days now st = snd (post_cleanup days now st)
  /\ (PG.in_int4 days = true ->
      timestamp_in_range (cutoff days now) = true ->
      forall r, r ∈ events (scheduled_cleanup days now st)
                <-> r ∈ events st
                    /\ ~ expired (now - days * 86400000000) r)
  /\ (PG.in_int4 days && timestamp_in_range (cutoff days now) = false ->
      events (scheduled_cleanup days now st) = events st).
Proof.
  assert (Heq : scheduled_cleanup days now st = snd (post_cleanup days now st)).
  { unfold scheduled_cleanup, post_cleanup.
    by destruct (pool_query _ now st) as [[r|] st']. }
  split; [exact Heq|]. split.
  - intros Hd Hc r. rewrite Heq, (post_cleanup_with days now st Hd Hc).
    simpl. rewrite list_elem_of_filter, older_than_false. tauto.
  - intros Hrej. unfold scheduled_cleanup, pool_query, delete_older_than.
    by rewrite Hrej.
Qed.

(** X13: a cleanup that follows an earlier one leaves the rows that a
    single cleanup at the later time leaves, and the two counts add up to
    the count of that single cleanup: a cleanup that was missed is made up
    for by the next. *)
Theorem cleanup_catches_up (days now1 now2 : Z) (st : store) :
  PG.in_int4 days = true ->
  timestamp_in_range (cutoff days now1) = true ->
  timestamp_in_range (cutoff days now2) = true ->
  now1 <= now2 ->
  let first := post_cleanup days now1 st in
  let second := post_cleanup days now2 (snd first) in
  let single := post_cleanup days now2 st in
  events (snd second) = events (snd single)
  /\ exists n1 n2,
       fst first = json 200 (DeletedCount n1)
       /\ fst second = json 200 (DeletedCount n2)
       /\ fst single = json 200 (DeletedCount (n1 + n2)).
Proof.
  intros Hd Hc1 Hc2 Hle first second single. unfold second, single, first.
  rewrite (post_cleanup_with days now1 st Hd Hc1).
  rewrite (post_cleanup_with days now2 _ Hd Hc2).
  rewrite (post_cleanup_with days now2 st Hd Hc2). cbn [fst snd events with_events].
  assert (Hcut : cutoff days now1 <= cutoff days now2).
  { unfold cutoff. lia. }
  destruct (purge_twice _ _ (events st) Hcut) as [Hkeep Hcount].
  split; [exact Hkeep|].
  eexists _, _. split; [reflexivity|]. split; [reflexivity|].
  rewrite <- Hcount. by rewrite Nat2Z.inj_add.
Qed.

End Scheduled.

Lemma cleanup_catches_up_witness :
  let day := PG.microseconds_per_day in
  events (snd (post_cleanup 7 (12 * day)
                 (snd (post_cleanup 7 (10 * day) retention_store))))
  = events (snd (post_cleanup 7 (12 * day) retention_store)).
Proof.
  intros day.
  apply (cleanup_catches_up 7 (10 * day) (12 * day) retention_store);
    [reflexivity | reflexivity | reflexivity | by vm_compute].
Defined.

(** *** What the lists show *)

Lemma prefix_fmap {A B} (f : A -> B) (l1 l2 : list A) :
  l1 `prefix_of` l2 -> f <$> l1 `prefix_of` f <$> l2.
Proof. intros [k ->]. exists (f <$> k). apply fmap_app. Qed.

Lemma take_prefix_le {A} (n m : nat) (l : list A) :
  (n <= m)%nat -> take n l `prefix_of` take m l.
Proof.
  intros Hle. replace (take n l) with (take n (take m l)).
  - apply prefix_take.
  - rewrite take_take. f_equal. lia.
Qed.

Section Lists.

Context {engine : Engine}.

(** After a soft delete of id [i], no active row has that id. *)
Lemma no_active_row_after_undo id_text i now st r :
  PG.int4in id_text = Some i ->
  r ∈ events (snd (delete_event id_text now st)) ->
  deleted_at r = None -> id r <> i.
Proof.
  intros Hi Hr Hact Hid.
  rewrite (delete_event_with id_text i now st Hi) in Hr. simpl in Hr.
  pose proof (update_no_target_left i now (events st)) as Hnil.
  apply hit_nil in Hnil. apply Hnil. by exists r.
Qed.

(** The events of a recent list are rows of the table that are active. *)
Lemma listed_rows limit now st e :
  e ∈ listed (fst (get_recent limit now st)) ->
  exists r, e = event_of_row r /\ r ∈ events st /\ deleted_at r = None.
Proof.
  destruct (limit_or_default limit) as (k & Hk & _).
  rewrite (get_recent_sent limit k now st Hk). cbv zeta.
  destruct (_ && _); simpl; [|intros He; by apply elem_of_nil in He].
  intros He. apply list_elem_of_fmap in He as (r & -> & Hr).
  exists r. split; [reflexivity|].
  pose proof (elem_of_sublist _ _ _ Hr (sublist_take _ _)) as Hr'.
  rewrite (order_by_permutation (active_rows st)) in Hr'.
  by apply active_rows_spec.
Qed.

(** The event of a last-event answer is a row of the table that is
    active. *)
Lemma last_row door type now st e :
  body (fst (get_last door type now st)) = Event e ->
  exists r, e = event_of_row r /\ r ∈ events st /\ deleted_at r = None.
Proof.
  unfold get_last. destruct (missing _ || missing _); [discriminate|].
  unfold pool_query, select_last.
  destruct (PG.int4in _) as [d|]; [|discriminate]. simpl.
  destruct (sql_limit 1 _) as [|r0 rest] eqn:Hrows; [discriminate|].
  simpl. intros [= <-]. exists r0. split; [reflexivity|].
  assert (Hin : r0 ∈ sql_limit 1
            (order_by_timestamp_desc
               (filter (fun r => for_button d (default "" type) r = true)
                       (events st)))).
  { change (events (received (SelectLast (default "" door) (default "" type)) st))
      with (events st) in Hrows. rewrite Hrows. left. }
  rewrite sql_limit_take in Hin.
  pose proof (elem_of_sublist _ _ _ Hin (sublist_take _ _)) as Hin'.
  rewrite (order_by_permutation _) in Hin'.
  apply list_elem_of_filter in Hin' as [Hb Hr0].
  apply for_button_true in Hb as (_ & _ & Hact). by split.
Qed.

(** X14: once an id has been soft-deleted, no recent list and no
    last-event lookup returns an event with that id, whatever the limit, the
    button or the time of the request. *)
Theorem undone_event_not_listed (id_text : string) (i now : Z) (st : store) :
  PG.int4in id_text = Some i ->
  let st' := snd (delete_event id_text now st) in
  (forall limit now2 e,
      e ∈ listed (fst (get_recent limit now2 st')) -> event_id e <> i)
  /\ (forall door type now2 e,
        body (fst (get_last door type now2 st')) = Event e ->
        event_id e <> i).
Proof.
  intros Hi st'. split.
  - intros limit now2 e He.
    apply listed_rows in He as (r & -> & Hr & Hact). simpl.
    by apply (no_active_row_after_undo id_text i now st r).
  - intros door type now2 e He.
    apply last_row in He as (r & -> & Hr & Hact). simpl.
    by apply (no_active_row_after_undo id_text i now st r).
Qed.

(** X16: with no active event the export is still answered 200, and the
    file is the header line alone. *)
Theorem export_without_active_events (now : Z) (st : store) :
  valid_date now -> active_rows st = [] ->
  exists filename,
    fst (get_export now st) = json 200 (Csv filename csv_headers).
Proof.
  intros Hnow Hnone.
  unfold get_export, pool_query, select_all_active.
  cbv beta iota zeta. cbn [rows].
  change (active_rows (received SelectAllActive st)) with (active_rows st).
  rewrite Hnone, (proj2 (order_by_nil [])) by reflexivity.
  rewrite (of_timestamp_valid now Hnow). simpl. eexists. reflexivity.
Qed.

End Lists.

(** With pairwise distinct timestamps, the order asked for by [ORDER BY
    timestamp_utc DESC] is the only one: every engine returns it. *)
Lemma order_by_unique (e1 e2 : Engine) (l : list row) :
  NoDup (timestamp_utc <$> l) ->
  @order_by_timestamp_desc e1 l = @order_by_timestamp_desc e2 l.
Proof.
  intros Hnd. apply (StronglySorted_unique_strong ts_desc).
  - intros x1 x2 H1 H2 Ha Hb.
    rewrite (@order_by_permutation e1) in H1.
    rewrite (@order_by_permutation e2) in H2.
    apply (NoDup_fmap_eq timestamp_utc l); [done | done | done |].
    unfold ts_desc in *. lia.
  - apply order_by_sorted.
  - apply order_by_sorted.
  - by rewrite (@order_by_permutation e1), (@order_by_permutation e2).
Qed.

(** X15: on a table whose active events have pairwise distinct timestamps,
    the recent list for a positive limit is the beginning of the recent list
    for any larger limit, also when the two queries are answered with
    different orders of equal timestamps (engines [e1] and [e2]).  Without
    the condition it is not so: see [recent_lists_may_disagree_on_ties]. *)
Theorem recent_prefix (e1 e2 : Engine) (l1 l2 : option string)
    (k1 k2 now1 now2 : Z) (st : store) :
  NoDup (timestamp_utc <$> active_rows st) ->
  JS.parseInt l1 = JS.Num k1 -> JS.parseInt l2 = JS.Num k2 ->
  0 < k1 <= k2 -> k2 <= JS.max_safe_integer ->
  listed (fst (get_recent (engine := e1) l1 now1 st))
  `prefix_of` listed (fst (get_recent (engine := e2) l2 now2 st)).
Proof.
  intros Hnd H1 H2 Hle Hmax. unfold JS.max_safe_integer in Hmax.
  assert (Hor : forall l k, JS.parseInt l = JS.Num k -> 0 < k ->
            JS.number_or (JS.parseInt l) (JS.Num 10) = JS.Num k).
  { intros l k Hl Hk. unfold JS.number_or. rewrite Hl. simpl.
    by replace (k =? 0) with false by lia. }
  rewrite (@get_recent_with e1 l1 k1 now1 st)
    by (try apply Hor; try exact H1; lia).
  rewrite (@get_recent_with e2 l2 k2 now2 st)
    by (try apply Hor; try exact H2; lia).
  replace ((0 <=? k1) && (k1 <=? PG.int8_max)) with true
    by (unfold PG.int8_max; lia).
  replace ((0 <=? k2) && (k2 <=? PG.int8_max)) with true
    by (unfold PG.int8_max; lia).
  simpl. rewrite (order_by_unique e1 e2 _ Hnd).
  apply prefix_fmap, take_prefix_le. lia.
Qed.

(** Two events with the same timestamp: a list of one from an engine that
    puts the lower id first is no beginning of a list of two from an engine
    that puts the higher id first. *)
Example recent_lists_may_disagree_on_ties :
  ~ listed (fst (get_recent (engine := lower_id_first) (Some "1") 13
                   tied_store))
    `prefix_of`
    listed (fst (get_recent (engine := higher_id_first) (Some "2") 14
                   tied_store)).
Proof. vm_compute. intros [k Hk]. discriminate Hk. Qed.

Lemma undone_event_not_listed_witness :
  Forall (fun e => event_id e <> 2)
    (listed (fst (get_recent (Some "10") 36000000900
                    (snd (delete_event "2" 36000000500 tied_store))))).
Proof.
  apply Forall_forall. intros e.
  apply (proj1 (undone_event_not_listed "2" 2 36000000500 tied_store
                  ltac:(reflexivity)) (Some "10") 36000000900 e).
Defined.

Lemma recent_prefix_witness :
  listed (fst (get_recent (engine := lower_id_first) (Some "2") 13
                 twelve_events))
  `prefix_of`
  listed (fst (get_recent (engine := higher_id_first) (Some "5") 14
                 twelve_events)).
Proof.
  apply (recent_prefix lower_id_first higher_id_first
           (Some "2") (Some "5") 2 5 13 14 twelve_events);
    [| reflexivity | reflexivity | lia | by vm_compute].
  refine (bool_decide_unpack _ _). by vm_compute.
Defined.

Lemma export_without_active_events_witness :
  exists filename,
    fst (get_export 1759517140000000 empty_store)
    = json 200 (Csv filename csv_headers).
Proof.
  apply (export_without_active_events 1759517140000000 empty_store).
  - vm_compute. eexists. reflexivity.
  - reflexivity.
Defined.

(** *** Door numbers sent as text *)

Lemma is_space_whitespace c : PG.is_space c = true -> JS.is_whitespace c = true.
Proof.
  unfold PG.is_space, JS.is_whitespace. cbv zeta.
  intros Hs. apply orb_true_iff. by left.
Qed.

Lemma is_digit_not_whitespace c :
  PG.is_digit c = true -> JS.is_whitespace c = false.
Proof.
  unfold PG.is_digit, JS.is_whitespace. cbv zeta. intros Hd.
  generalize dependent (JS.code c). intros n Hd. lia.
Qed.

Lemma is_digit_value c :
  PG.is_digit c = true -> JS.digit_value c = Some (JS.code c - 48)
                          /\ 0 <= JS.code c - 48 < 10.
Proof.
  unfold PG.is_digit, JS.digit_value. cbv zeta. intros Hd.
  rewrite Hd. split; [reflexivity|].
  generalize dependent (JS.code c). intros n Hd. lia.
Qed.

Lemma chars_app a b : chars (a +:+ b) = chars a ++ chars b.
Proof. induction a as [|c a IH]; [reflexivity|]. simpl. by rewrite IH. Qed.

Lemma chars_rev s : chars (JS.string_rev s) = rev (chars s).
Proof.
  unfold JS.string_rev, chars. apply list_ascii_of_string_of_list_ascii.
Qed.

Lemma chars_inj a b : chars a = chars b -> a = b.
Proof.
  intros Heq. rewrite <- (string_of_list_ascii_of_string a).
  rewrite <- (string_of_list_ascii_of_string b). unfold chars in Heq.
  by rewrite Heq.
Qed.

Lemma trim_start_blank w :
  JS.trim_start w = "" <-> Forall (fun c => JS.is_whitespace c = true) (chars w).
Proof.
  induction w as [|c w IH]; simpl.
  - split; [constructor | reflexivity].
  - destruct (JS.is_whitespace c) eqn:Hc; split.
    + intros Hw. constructor; [exact Hc | by apply IH].
    + intros Hall. apply IH. by inversion Hall.
    + discriminate.
    + intros Hall. inversion Hall. congruence.
Qed.

Lemma trim_start_app_blank w x :
  JS.trim_start w = "" -> JS.trim_start (w +:+ x) = JS.trim_start x.
Proof.
  induction w as [|c w IH]; [reflexivity|]. simpl.
  destruct (JS.is_whitespace c); [exact IH | discriminate].
Qed.

Lemma trim_start_head c r :
  JS.is_whitespace c = false -> JS.trim_start (String c r) = String c r.
Proof. intros Hc. simpl. by rewrite Hc. Qed.

Lemma string_rev_app a b :
  JS.string_rev (a +:+ b) = JS.string_rev b +:+ JS.string_rev a.
Proof.
  apply chars_inj. by rewrite chars_app, !chars_rev, chars_app, rev_app_distr.
Qed.

Lemma string_rev_involutive s : JS.string_rev (JS.string_rev s) = s.
Proof. apply chars_inj. by rewrite !chars_rev, rev_involutive. Qed.

Lemma string_rev_blank w :
  JS.trim_start w = "" -> JS.trim_start (JS.string_rev w) = "".
Proof.
  rewrite !trim_start_blank, chars_rev. intros Hall.
  apply Forall_forall. intros c Hc. rewrite Forall_forall in Hall.
  apply Hall. apply list_elem_of_In. apply in_rev.
  by apply list_elem_of_In.
Qed.

(** White space around a text that neither begins nor ends with white
    space is what [trim] removes. *)
Lemma trim_core w1 core w2 :
  JS.trim_start w1 = "" -> JS.trim_start w2 = "" ->
  JS.trim_start core = core ->
  JS.trim_start (JS.string_rev core) = JS.string_rev core ->
  core <> "" ->
  JS.trim (w1 +:+ core +:+ w2) = core.
Proof.
  intros Hw1 Hw2 Hfirst Hlast Hne. unfold JS.trim.
  rewrite (trim_start_app_blank w1 _ Hw1).
  assert (Hcw : JS.trim_start (core +:+ w2) = core +:+ w2).
  { destruct core as [|c r]; [done|]. simpl in *.
    destruct (JS.is_whitespace c); [|reflexivity].
    exfalso. assert (Hlen : String.length (JS.trim_start r)
                            = S (String.length r)) by by rewrite Hfirst.
    clear -Hlen. assert (forall s, (String.length (JS.trim_start s)
                                    <= String.length s)%nat) as Hshort.
    { induction s as [|c s IH]; simpl; [lia|].
      destruct (JS.is_whitespace c); simpl; lia. }
    specialize (Hshort r). lia. }
  rewrite Hcw, string_rev_app.
  rewrite (trim_start_app_blank _ _ (string_rev_blank w2 Hw2)).
  by rewrite Hlast, string_rev_involutive.
Qed.

Lemma skip_space_split s :
  exists w, s = w +:+ PG.skip_space s /\ PG.skip_space w = "".
Proof.
  induction s as [|c s (w & Hs & Hw)]; [by exists ""|]. simpl.
  destruct (PG.is_space c) eqn:Hc.
  - exists (String c w). split.
    + change (String c w +:+ PG.skip_space s)
        with (String c (w +:+ PG.skip_space s)). by rewrite <- Hs.
    + simpl. by rewrite Hc.
  - by exists "".
Qed.

Lemma skip_space_blank w : PG.skip_space w = "" -> JS.trim_start w = "".
Proof.
  induction w as [|c w IH]; [reflexivity|]. simpl.
  destruct (PG.is_space c) eqn:Hc; [|discriminate].
  rewrite (is_space_whitespace c Hc). exact IH.
Qed.

Lemma read_decimal_split s acc m rest :
  PG.read_decimal s acc = (Some m, rest) ->
  exists ds, s = ds +:+ rest
             /\ PG.read_decimal ds acc = (Some m, "")
             /\ (acc = None -> ds <> "").
Proof.
  revert acc. induction s as [|c s IH]; intros acc; simpl.
  - intros [= -> <-]. exists "". by repeat split.
  - destruct (PG.is_digit c) eqn:Hc.
    + intros Hr. destruct (IH _ Hr) as (ds & -> & Hds & _).
      exists (String c ds). simpl. rewrite Hc. by repeat split.
    + intros [= -> <-]. exists "". by repeat split.
Qed.

(** A run of digits read to its end: the digits, their value, and the
    last of them. *)
Lemma read_decimal_all ds acc m :
  PG.read_decimal ds acc = (Some m, "") ->
  JS.digits_all 10 ds acc = Some m
  /\ Forall (fun c => PG.is_digit c = true) (chars ds).
Proof.
  revert acc. induction ds as [|c ds IH]; intros acc; simpl.
  - intros [= ->]. split; [reflexivity | constructor].
  - destruct (PG.is_digit c) eqn:Hc; [|discriminate].
    intros Hr. destruct (is_digit_value c Hc) as [Hv Hrange].
    rewrite Hv. replace (JS.code c - 48 <? 10) with true by lia.
    destruct (IH _ Hr) as [Hall Hdig]. split; [exact Hall|].
    by constructor.
Qed.

Lemma sign_match_other (c : ascii) (r : string) :
  c <> "-"%char -> c <> "+"%char ->
  match String c r with
  | String "-" r' => (true, r')
  | String "+" r' => (false, r')
  | _ => (false, String c r)
  end = (false, String c r).
Proof.
  intros Hm Hp.
  destruct c as [[] [] [] [] [] [] [] []]; try reflexivity; congruence.
Qed.

(** The parts of a text that PostgreSQL reads as an integer. *)
Lemma int4in_shape s d :
  PG.int4in s = Some d ->
  exists w1 sg ds w2 m,
    s = w1 +:+ sg +:+ ds +:+ w2
    /\ PG.skip_space w1 = "" /\ PG.skip_space w2 = ""
    /\ (sg = "" /\ d = m \/ sg = "+" /\ d = m \/ sg = "-" /\ d = - m)
    /\ PG.read_decimal ds None = (Some m, "")
    /\ ds <> "".
Proof.
  unfold PG.int4in. intros Hin.
  destruct (skip_space_split s) as (w1 & Hs & Hw1).
  assert (Hparts : forall neg s1,
    (let '(neg0, s2) := (neg, s1) in
     match PG.read_decimal s2 None with
     | (Some m, rest) =>
         match PG.skip_space rest with
         | "" => let n := if neg0 : bool then - m else m in
                 if PG.in_int4 n then Some n else None
         | _ => None
         end
     | (None, _) => None
     end) = Some d ->
    exists ds w2 m, s1 = ds +:+ w2 /\ PG.skip_space w2 = ""
                    /\ d = (if neg then - m else m)
                    /\ PG.read_decimal ds None = (Some m, "") /\ ds <> "").
  { intros neg s1. cbv beta iota zeta.
    destruct (PG.read_decimal s1 None) as [[m|] rest] eqn:Hread; [|discriminate].
    destruct (PG.skip_space rest) eqn:Hrest; [|discriminate].
    destruct (PG.in_int4 _); [|discriminate]. intros [= <-].
    destruct (read_decimal_split _ _ _ _ Hread) as (ds & -> & Hds & Hne).
    exists ds, rest, m. repeat split; auto. }
  destruct (PG.skip_space s) as [|c r] eqn:Hs0.
  { destruct (Hparts false "" Hin) as (ds & w2 & m & Heq & _ & _ & _ & Hne).
    destruct ds; [done | discriminate]. }
  destruct (ascii_dec c "-") as [->|Hm].
  { destruct (Hparts true r Hin) as (ds & w2 & m & -> & Hw2 & -> & Hds & Hne).
    exists w1, "-", ds, w2, m. rewrite Hs. repeat split; auto. }
  destruct (ascii_dec c "+") as [->|Hp].
  { destruct (Hparts false r Hin) as (ds & w2 & m & -> & Hw2 & -> & Hds & Hne).
    exists w1, "+", ds, w2, m. rewrite Hs. repeat split; auto. }
  rewrite (sign_match_other c r Hm Hp) in Hin.
  destruct (Hparts false _ Hin) as (ds & w2 & m & Heq & Hw2 & -> & Hds & Hne).
  exists w1, "", ds, w2, m. rewrite Hs, Heq. repeat split; auto.
Qed.

Lemma digits_all_head c r m :
  JS.digits_all 10 (String c r) None = Some m ->
  exists v, JS.digit_value c = Some v /\ v < 10.
Proof.
  simpl. destruct (JS.digit_value c) as [v|]; [|discriminate].
  destruct (v <? 10) eqn:Hv; [|discriminate]. intros _. exists v.
  split; [reflexivity | lia].
Qed.

Lemma digits_all_second c1 c2 r acc m :
  JS.digits_all 10 (String c1 (String c2 r)) acc = Some m ->
  exists v, JS.digit_value c2 = Some v /\ v < 10.
Proof.
  cbn [JS.digits_all]. destruct (JS.digit_value c1) as [v1|]; [|discriminate].
  destruct (v1 <? 10); [|discriminate].
  destruct (JS.digit_value c2) as [v|]; [|discriminate].
  destruct (v <? 10) eqn:Hv; [|discriminate]. intros _. exists v.
  split; [reflexivity | lia].
Qed.

(** A trimmed text made of decimal digits is read in radix 10. *)
Lemma StringToNumber_digits s c r m :
  JS.trim s = String c r ->
  PG.is_digit c = true ->
  JS.digits_all 10 (String c r) None = Some m ->
  JS.StringToNumber s = JS.Num m.
Proof.
  intros Htrim Hc Hdigits. unfold JS.StringToNumber. rewrite Htrim.
  destruct (ascii_dec c "0") as [->|Hzero].
  - destruct r as [|c2 r2].
    + cbv zeta. cbv iota. by rewrite Hdigits.
    + destruct (digits_all_second _ _ _ _ _ Hdigits) as (v & Hv & Hlt).
      destruct c2 as [[] [] [] [] [] [] [] []];
        try (vm_compute in Hv; injection Hv as <-; lia);
        cbv zeta; cbv iota; by rewrite Hdigits.
  - destruct c as [[] [] [] [] [] [] [] []]; try discriminate Hc;
      try congruence; cbv zeta; cbv iota; by rewrite Hdigits.
Qed.

(** The text ends in a digit: reversed, it begins with one. *)
Lemma string_rev_digits_head pre ds :
  ds <> "" -> Forall (fun c => PG.is_digit c = true) (chars ds) ->
  JS.trim_start (JS.string_rev (pre +:+ ds)) = JS.string_rev (pre +:+ ds).
Proof.
  intros Hne Hall. rewrite string_rev_app.
  assert (Hhead : exists c r, JS.string_rev ds = String c r
                              /\ PG.is_digit c = true).
  { destruct (JS.string_rev ds) as [|c r] eqn:Hrev.
    - exfalso. apply Hne. apply chars_inj.
      apply (f_equal chars) in Hrev. rewrite chars_rev in Hrev.
      simpl in Hrev. apply (f_equal (@rev ascii)) in Hrev.
      by rewrite rev_involutive in Hrev.
    - exists c, r. split; [reflexivity|].
      apply (f_equal chars) in Hrev. rewrite chars_rev in Hrev.
      rewrite Forall_forall in Hall. apply Hall.
      apply list_elem_of_In, in_rev. rewrite Hrev. left. reflexivity. }
  destruct Hhead as (c & r & -> & Hc).
  change (String c r +:+ JS.string_rev pre)
    with (String c (r +:+ JS.string_rev pre)).
  apply trim_start_head. by apply is_digit_not_whitespace.
Qed.

(** A text that PostgreSQL reads as the integer [d] converts to the number
    [d] in JavaScript. *)
Lemma StringToNumber_int4in s d :
  PG.int4in s = Some d -> JS.StringToNumber s = JS.Num d.
Proof.
  intros Hin.
  destruct (int4in_shape s d Hin)
    as (w1 & sg & ds & w2 & m & -> & Hw1 & Hw2 & Hsign & Hread & Hne).
  destruct (read_decimal_all ds None m Hread) as [Hdigits Hall].
  apply skip_space_blank in Hw1, Hw2.
  assert (Hds : exists c r, ds = String c r /\ PG.is_digit c = true).
  { destruct ds as [|c r]; [done|]. exists c, r. split; [reflexivity|].
    by inversion Hall. }
  destruct Hds as (c & r & Hds & Hc).
  destruct Hsign as [[-> ->]|[[-> ->]|[-> ->]]].
  - assert (Htrim : JS.trim (w1 +:+ ds +:+ w2) = ds).
    { apply trim_core; [exact Hw1 | exact Hw2 | | | exact Hne].
      - rewrite Hds. by apply trim_start_head, is_digit_not_whitespace.
      - by apply (string_rev_digits_head "" ds). }
    rewrite Hds in Htrim, Hdigits.
    change ("" +:+ ds +:+ w2) with (ds +:+ w2). rewrite Hds.
    by apply (StringToNumber_digits _ c r m).
  - assert (Htrim : JS.trim (w1 +:+ String "+" ds +:+ w2) = String "+" ds).
    { apply trim_core; [exact Hw1 | exact Hw2 | reflexivity | | discriminate].
      by apply (string_rev_digits_head "+" ds). }
    change ("+" +:+ ds +:+ w2) with (String "+" ds +:+ w2).
    unfold JS.StringToNumber. rewrite Htrim. cbv zeta. cbv iota.
    by rewrite Hdigits.
  - assert (Htrim : JS.trim (w1 +:+ String "-" ds +:+ w2) = String "-" ds).
    { apply trim_core; [exact Hw1 | exact Hw2 | reflexivity | | discriminate].
      by apply (string_rev_digits_head "-" ds). }
    change ("-" +:+ ds +:+ w2) with (String "-" ds +:+ w2).
    unfold JS.StringToNumber. rewrite Htrim. cbv zeta. cbv iota.
    by rewrite Hdigits.
Qed.

Section DoorText.

Context {engine : Engine}.

(** A door number that is not text, that passed validation and that
    PostgreSQL reads as an integer is within 1 to 26. *)
Lemma validated_number_in_range door text d :
  (forall s, door <> JS.JStr s) ->
  JS.lt door 1 || JS.gt door 26 = false ->
  PG.prepareValue door = Some text -> PG.int4in text = Some d ->
  1 <= d <= 26.
Proof.
  intros Hnum Hrange Htext Hin. apply orb_false_elim in Hrange as [Hlt Hgt].
  unfold JS.lt, JS.gt in Hlt, Hgt.
  assert (Hd : JS.ToNumber door = JS.Num d).
  { destruct door as [| |b0|n|s]; simpl in Htext; try discriminate;
      try injection Htext as <-.
    - destruct b0; discriminate Hin.
    - rewrite int4in_pretty_any in Hin.
      destruct (PG.in_int4 n); [|discriminate]. by injection Hin as ->.
    - by destruct (Hnum s). }
  rewrite Hd in Hlt, Hgt. lia.
Qed.

(** X17: for a body whose [door_number] is not text (a JSON number,
    boolean or null), the validation of [POST /api/events] is at least as
    strict as the constraints of the table: either the event is created
    (201) or rows and id sequence are as before, so such a request never
    uses up an id without storing a row.  Text is left out: which texts
    PostgreSQL reads as integers depends on its version. *)
Theorem record_never_wastes_an_id (b : gmap string JS.value) (now : Z)
    (st : store) :
  (forall s, b !! "door_number" <> Some (JS.JStr s)) ->
  status (fst (post_events b now st)) = 201
  \/ (events (snd (post_events b now st)) = events st
      /\ events_id_seq (snd (post_events b now st)) = events_id_seq st).
Proof.
  intros Hnum. unfold post_events.
  set (door := default JS.JUndefined (b !! "door_number")).
  set (type := default JS.JUndefined (b !! "event_type")).
  assert (Hdoor : forall s, door <> JS.JStr s).
  { intros s Hs. unfold door in Hs.
    destruct (b !! "door_number") as [v|] eqn:Hv; [|discriminate Hs].
    simpl in Hs. subst v. by apply (Hnum s). }
  destruct (negb (JS.truthy door) || negb (JS.truthy type)) eqn:Htruthy;
    [by right|].
  destruct (JS.lt door 1 || JS.gt door 26) eqn:Hrange; [by right|].
  destruct (negb (JS.includes _ type)) eqn:Hinc; [by right|].
  apply negb_false_iff, includes_true in Hinc as (t & Ht & Hin).
  unfold pool_query, insert_event. cbn [received events_id_seq events].
  rewrite Ht. cbn [PG.prepareValue].
  destruct (PG.prepareValue door) as [text|] eqn:Htext.
  - destruct (PG.int4in text) as [d|] eqn:Hparse;
      cbn [fmap option_fmap option_map]; [|by right].
    destruct (PG.int4_max <? events_id_seq st + 1); [by right|].
    pose proof (validated_number_in_range door text d Hdoor Hrange Htext
                  Hparse) as Hd.
    replace ((1 <=? d) && (d <=? 26)) with true by lia.
    assert (Hexists : existsb (String.eqb t) PG.event_types = true).
    { apply event_types_member. exact Hin. }
    rewrite Hexists. simpl. by left.
  - exfalso. apply orb_false_elim in Htruthy as [Hdoor' _].
    destruct door; simpl in Htext, Hdoor'; try discriminate.
Qed.

(** X18: a door number sent as the decimal text of a number from 1 to 26
    is accepted like the number itself, and stored as an integer. *)
Theorem record_accepts_door_text (b : gmap string JS.value) (s : string)
    (d : Z) (t : string) (now : Z) (st : store) :
  b !! "door_number" = Some (JS.JStr s) ->
  b !! "event_type" = Some (JS.JStr t) ->
  PG.int4in s = Some d -> 1 <= d <= 26 -> t ∈ PG.event_types ->
  events_id_seq st + 1 <= PG.int4_max ->
  let new := {| id := events_id_seq st + 1; door_number := d;
                event_type := t; timestamp_utc := now;
                created_at := Some now; deleted_at := None |} in
  fst (post_events b now st) = json 201 (Event (event_of_row new))
  /\ events (snd (post_events b now st)) = events st ++ [new].
Proof.
  intros Hdoor Htype Hparse Hd Ht Hseq new. unfold post_events.
  rewrite Hdoor, Htype.
  change (default JS.JUndefined (Some (JS.JStr s))) with (JS.JStr s).
  change (default JS.JUndefined (Some (JS.JStr t))) with (JS.JStr t).
  assert (Hs : s <> "") by (intros ->; discriminate Hparse).
  assert (Htruthy : negb (JS.truthy (JS.JStr s)) || negb (JS.truthy (JS.JStr t))
                    = false).
  { simpl. destruct s; [done|]. simpl.
    repeat (apply elem_of_cons in Ht as [->|Ht]; [reflexivity|]).
    by apply elem_of_nil in Ht. }
  rewrite Htruthy.
  assert (Hrange : JS.lt (JS.JStr s) 1 || JS.gt (JS.JStr s) 26 = false).
  { unfold JS.lt, JS.gt. cbn [JS.ToNumber].
    rewrite (StringToNumber_int4in s d Hparse). lia. }
  rewrite Hrange.
  assert (Hinc : JS.includes ["A_IN"; "A_OUT"; "B_IN"; "B_OUT"] (JS.JStr t)
                 = true).
  { apply includes_true. by exists t. }
  rewrite Hinc. cbn [negb].
  unfold pool_query, insert_event. cbn [PG.prepareValue]. rewrite Hparse.
  cbn [fmap option_fmap option_map received events_id_seq].
  replace (PG.int4_max <? events_id_seq st + 1) with false by lia.
  replace ((1 <=? d) && (d <=? 26)) with true by lia.
  rewrite (proj2 (event_types_member t) Ht). simpl. done.
Qed.

End DoorText.

Lemma record_never_wastes_an_id_witness :
  let b : gmap string JS.value :=
    {[ "door_number" := JS.JBool true; "event_type" := JS.JStr "A_IN" ]} in
  status (fst (post_events b 36000000700 tied_store)) = 201
  \/ (events (snd (post_events b 36000000700 tied_store)) = events tied_store
      /\ events_id_seq (snd (post_events b 36000000700 tied_store))
         = events_id_seq tied_store).
Proof.
  intros b. apply (record_never_wastes_an_id b 36000000700 tied_store).
  intros s. by vm_compute.
Defined.

Lemma record_accepts_door_text_witness :
  fst (post_events {[ "door_number" := JS.JStr " 7 ";
                      "event_type" := JS.JStr "B_OUT" ]}
         36000000000 empty_store)
  = json 201 (Event {| event_id := 1; event_door_number := 7;
                       event_event_type := "B_OUT";
                       event_timestamp_utc := Some 36000000 |}).
Proof.
  apply (record_accepts_door_text
           {[ "door_number" := JS.JStr " 7 "; "event_type" := JS.JStr "B_OUT" ]}
           " 7 " 7 "B_OUT" 36000000000 empty_store);
    [reflexivity | reflexivity | reflexivity | lia | | by vm_compute].
  right. right. right. left.
Defined.
